(** * Telephony audio pipeline of twilio-websocket-server

    A shallow embedding of the audio path of the repository: the G.711
    mu-law decoders, the RIFF/WAVE writers, the chunk buffer of the live
    speech server (gstt.js) with its interval-driven flush, the offline
    converters that stitch recorded Twilio messages into a WAV file, and
    the WebSocket handler that feeds the buffer.

    JavaScript numbers that occur on this path are integers far below
    2^53, so they are modelled as [Z]; the 32-bit wrap-around of the
    bitwise operators is written out.  A Node [Buffer] is a list of byte
    values.  Methods that mutate [this] take the object and return the
    updated one; methods that can raise return a [result]. *)

From Stdlib Require Import ZArith Lia Bool Ascii String List.
From Stdlib Require Import Permutation Sorted.
Import ListNotations.
Local Open Scope string_scope.
Local Open Scope list_scope.
Local Open Scope Z_scope.

(* ================================================================== *)
(** ** Runtime primitives: numbers, exceptions, Buffer, base64 *)
(* ================================================================== *)

Module JS.

(** [ToInt32], applied by every bitwise operator to its operands and to
    its result. *)
Definition ToInt32 (x : Z) : Z := (x + 2 ^ 31) mod 2 ^ 32 - 2 ^ 31.

(** [~x] *)
Definition bnot (x : Z) : Z := ToInt32 (Z.lnot (ToInt32 x)).
(** [a & b] *)
Definition band (a b : Z) : Z := ToInt32 (Z.land (ToInt32 a) (ToInt32 b)).
(** [a | b] *)
Definition bor (a b : Z) : Z := ToInt32 (Z.lor (ToInt32 a) (ToInt32 b)).
(** [a << n]: the shift count is taken modulo 32. *)
Definition shl (a n : Z) : Z := ToInt32 (Z.shiftl (ToInt32 a) (Z.land n 31)).
(** [a >> n]: sign-propagating right shift. *)
Definition sar (a n : Z) : Z := Z.shiftr (ToInt32 a) (Z.land n 31).

(** Truthiness of a number and of a string. *)
Definition truthy (x : Z) : bool := negb (x =? 0).
Definition truthy_string (s : string) : bool :=
  match s with EmptyString => false | String _ _ => true end.

(** [a || b] on possibly missing strings: the first truthy operand. *)
Definition or_else (a : option string) (b : option string) : option string :=
  match a with
  | Some s => if truthy_string s then Some s else b
  | None => b
  end.

(** Storing a number into an [Int16Array] element. *)
Definition ToInt16 (x : Z) : Z := (x + 2 ^ 15) mod 2 ^ 16 - 2 ^ 15.

(** Exceptions raised on this path. *)
Inductive exn : Type :=
| RangeError
| TypeError
| Error (message : string).

Inductive result (A : Type) : Type :=
| Ok (a : A)
| Throw (e : exn).
Arguments Ok {A} a.
Arguments Throw {A} e.

Definition bind {A B : Type} (r : result A) (k : A -> result B) : result B :=
  match r with
  | Ok a => k a
  | Throw e => Throw e
  end.

(** A Buffer: its bytes, each in 0..255. *)
Definition Buffer : Type := list Z.

(** [Buffer.alloc(size)]: zero-filled. *)
Definition alloc (size : nat) : Buffer := repeat 0 size.

(** Overwrite [bytes] into [buf] from index [offset]. *)
Definition splice (bytes : list Z) (offset : nat) (buf : Buffer) : Buffer :=
  firstn offset buf ++ bytes ++ skipn (offset + length bytes) buf.

(** The [n] low-order bytes of [v], least significant first, and the
    number a little-endian byte sequence denotes. *)
Fixpoint le_bytes (n : nat) (v : Z) : list Z :=
  match n with
  | O => []
  | S n' => v mod 256 :: le_bytes n' (v / 256)
  end.

Fixpoint le_value (bs : list Z) : Z :=
  match bs with
  | [] => 0
  | b :: rest => b + 256 * le_value rest
  end.

(** [buf.writeUInt32LE(value, offset)]: a value outside 0..2^32-1 or a
    field that does not fit raises RangeError. *)
Definition writeUInt32LE (value : Z) (offset : nat) (buf : Buffer) : result Buffer :=
  if (0 <=? value) && (value <=? 4294967295) then
    if (offset + 4 <=? length buf)%nat
    then Ok (splice (le_bytes 4 value) offset buf)
    else Throw RangeError
  else Throw RangeError.

(** [buf.writeUInt16LE(value, offset)] *)
Definition writeUInt16LE (value : Z) (offset : nat) (buf : Buffer) : result Buffer :=
  if (0 <=? value) && (value <=? 65535) then
    if (offset + 2 <=? length buf)%nat
    then Ok (splice (le_bytes 2 value) offset buf)
    else Throw RangeError
  else Throw RangeError.

(** [buf.writeInt16LE(value, offset)]: two's complement, range
    -32768..32767. *)
Definition writeInt16LE (value : Z) (offset : nat) (buf : Buffer) : result Buffer :=
  if (-32768 <=? value) && (value <=? 32767) then
    if (offset + 2 <=? length buf)%nat
    then Ok (splice (le_bytes 2 (value mod 65536)) offset buf)
    else Throw RangeError
  else Throw RangeError.

(** [buf.readUInt32LE(offset)] and [buf.readUInt16LE(offset)] *)
Definition readUInt32LE (offset : nat) (buf : Buffer) : result Z :=
  if (offset + 4 <=? length buf)%nat
  then Ok (le_value (firstn 4 (skipn offset buf)))
  else Throw RangeError.

Definition readUInt16LE (offset : nat) (buf : Buffer) : result Z :=
  if (offset + 2 <=? length buf)%nat
  then Ok (le_value (firstn 2 (skipn offset buf)))
  else Throw RangeError.

(** [buf.readInt16LE(offset)]: the 16-bit value, sign-extended. *)
Definition readInt16LE (offset : nat) (buf : Buffer) : result Z :=
  if (offset + 2 <=? length buf)%nat
  then let val := le_value (firstn 2 (skipn offset buf)) in
       Ok (if val <? 32768 then val else val - 65536)
  else Throw RangeError.

(** Character codes of an ASCII string. *)
Definition bytes_of_string (s : string) : list Z :=
  map (fun c => Z.of_N (N_of_ascii c)) (list_ascii_of_string s).

(** [buf.write(string, offset)]: as many characters as fit. *)
Definition write (s : string) (offset : nat) (buf : Buffer) : result Buffer :=
  if (offset <=? length buf)%nat
  then Ok (splice (firstn (length buf - offset) (bytes_of_string s)) offset buf)
  else Throw RangeError.

(** [source.copy(target, targetStart)] *)
Definition copy (source : Buffer) (targetStart : nat) (target : Buffer) : Buffer :=
  splice (firstn (length target - targetStart) source) targetStart target.

(** [Buffer.concat(list)] *)
Definition concat (chunks : list Buffer) : Buffer := List.concat chunks.

(** [Array.prototype.join('')] on strings. *)
Definition join (parts : list string) : string :=
  fold_right String.append EmptyString parts.

(** [Buffer.from(text, 'base64')].  The value of a character in the
    base64 alphabet (the URL-safe variants are accepted too). *)
Definition unbase64 (c : ascii) : option Z :=
  let n := Z.of_N (N_of_ascii c) in
  if (65 <=? n) && (n <=? 90) then Some (n - 65)
  else if (97 <=? n) && (n <=? 122) then Some (n - 71)
  else if (48 <=? n) && (n <=? 57) then Some (n + 4)
  else if (n =? 43) || (n =? 45) then Some 62
  else if (n =? 47) || (n =? 95) then Some 63
  else None.

(** Characters outside the alphabet are skipped; padding ends the data. *)
Fixpoint sextets (s : string) : list Z :=
  match s with
  | EmptyString => []
  | String c rest =>
      if (N_of_ascii c =? 61)%N then []
      else match unbase64 c with
           | Some v => v :: sextets rest
           | None => sextets rest
           end
  end.

Fixpoint unsextets (l : list Z) : list Z :=
  match l with
  | a :: b :: c :: d :: rest =>
      (a * 4 + b / 16) :: ((b mod 16) * 16 + c / 4) :: ((c mod 4) * 64 + d)
        :: unsextets rest
  | [a; b; c] => [a * 4 + b / 16; (b mod 16) * 16 + c / 4]
  | [a; b] => [a * 4 + b / 16]
  | _ => []
  end.

Definition from_base64 (text : string) : Buffer := unsextets (sextets text).

End JS.

Notation "x <- e ;; k" := (JS.bind e (fun x => k))
  (at level 61, e at next level, right associativity).

(* ================================================================== *)
(** ** Shapes shared by the converter classes *)
(* ================================================================== *)

(** Every converter class carries its own copy of the same conversion
    loop,
      [for (i = 0; i < mulawBuffer.length; i++)
         pcmBuffer.writeInt16LE(decode(mulawBuffer[i]), i * 2)],
    over a buffer allocated with [mulawBuffer.length * 2] bytes. *)
Section ConversionLoop.

Variable decode : Z -> Z.

Fixpoint pcm_loop (i : nat) (rest : JS.Buffer) (pcmBuffer : JS.Buffer)
  : JS.result JS.Buffer :=
  match rest with
  | [] => JS.Ok pcmBuffer
  | mulawByte :: rest' =>
      let pcmValue := decode mulawByte in
      pcmBuffer' <- JS.writeInt16LE pcmValue (i * 2) pcmBuffer ;;
      pcm_loop (S i) rest' pcmBuffer'
  end.

Definition pcm_of_mulaw (mulawBuffer : JS.Buffer) : JS.result JS.Buffer :=
  pcm_loop 0 mulawBuffer (JS.alloc (length mulawBuffer * 2)).

End ConversionLoop.

(** The fields the converter constructors set:
    [sampleRate = 8000], [channels = 1], [bitsPerSample = 16]. *)
Record AudioFormat : Type := mkAudioFormat {
  sampleRate : Z;
  channels : Z;
  bitsPerSample : Z
}.

Definition telephony_format : AudioFormat :=
  {| sampleRate := 8000; channels := 1; bitsPerSample := 16 |}.

(** The header writer shared, statement for statement, by
    [ImprovedAudioConverter.createWavHeader] and
    [TwilioAudioProcessor.createWavHeader]; [byteRate] and [blockAlign]
    are the values those methods compute inline.  The header is written
    into [buffer] from offset 0. *)
Definition write_wav_fields (fileSize channelCount rate byteRate blockAlign bits
                             dataSize : Z) (buffer : JS.Buffer)
  : JS.result JS.Buffer :=
  buffer <- JS.write "RIFF" 0 buffer ;;
  buffer <- JS.writeUInt32LE fileSize 4 buffer ;;
  buffer <- JS.write "WAVE" 8 buffer ;;
  buffer <- JS.write "fmt " 12 buffer ;;
  buffer <- JS.writeUInt32LE 16 16 buffer ;;
  buffer <- JS.writeUInt16LE 1 20 buffer ;;
  buffer <- JS.writeUInt16LE channelCount 22 buffer ;;
  buffer <- JS.writeUInt32LE rate 24 buffer ;;
  buffer <- JS.writeUInt32LE byteRate 28 buffer ;;
  buffer <- JS.writeUInt16LE blockAlign 32 buffer ;;
  buffer <- JS.writeUInt16LE bits 34 buffer ;;
  buffer <- JS.write "data" 36 buffer ;;
  JS.writeUInt32LE dataSize 40 buffer.

(* ================================================================== *)
(** ** improved converter (src/unnamed/part_000) *)
(* ================================================================== *)

Module ImprovedAudioConverter.

(** [mulawDecode(mulawByte)]: the branching decoder. *)
Definition mulawDecode (mulawByte : Z) : Z :=
  let BIAS := 0x84 in
  let CLIP := 32635 in
  let mulawByte := JS.band (JS.bnot mulawByte) 0xFF in
  let sign := JS.band mulawByte 0x80 in
  let exponent := JS.band (JS.sar mulawByte 4) 0x07 in
  let mantissa := JS.band mulawByte 0x0F in
  let linearValue :=
    if exponent =? 0
    then JS.shl mantissa 4 + BIAS
    else JS.shl (JS.bor mantissa 0x10) (exponent + 3) + BIAS in
  let linearValue := if JS.truthy sign then - linearValue else linearValue in
  Z.max (- CLIP) (Z.min CLIP linearValue).

(** One iteration of the loop of [generateMulawTable]: the value stored
    at [table[i]]. *)
Definition table_entry (i : Z) : Z :=
  let BIAS := 0x84 in
  let mulawByte := JS.band (JS.bnot i) 0xFF in
  let sign := JS.band mulawByte 0x80 in
  let exponent := JS.band (JS.sar mulawByte 4) 0x07 in
  let mantissa := JS.band mulawByte 0x0F in
  let sample := JS.shl mantissa (exponent + 3) in
  let sample := sample + BIAS in
  let sample := if JS.truthy sign then - sample else sample in
  Z.max (-32768) (Z.min 32767 sample).

(** [generateMulawTable()]: the 256 entries, for [i] from 0 to 255. *)
Definition generateMulawTable : list Z :=
  map (fun i => table_entry (Z.of_nat i)) (seq 0 256).

(** [mulawDecodeAlt(mulawByte)]: [MULAW_TABLE[mulawByte]]; an index
    outside the table reads [undefined], here [None]. *)
Definition mulawDecodeAlt (mulawByte : Z) : option Z :=
  if mulawByte <? 0 then None
  else nth_error generateMulawTable (Z.to_nat mulawByte).

(** [mulawToPcm(mulawBuffer, useAltDecoder)].  The elements of a
    Buffer are bytes, so the table lookup finds an entry; [undefined]
    would pass the range check of [writeInt16LE] as NaN and be stored as
    zero. *)
Definition mulawToPcm (mulawBuffer : JS.Buffer) (useAltDecoder : bool)
  : JS.result JS.Buffer :=
  pcm_of_mulaw
    (fun b =>
       if useAltDecoder
       then match mulawDecodeAlt b with
            | Some v => v
            | None => 0
            end
       else mulawDecode b)
    mulawBuffer.

(** [createWavHeader(dataSize)], with [this] the converter's format
    fields.  The divisions by 8 are exact for the values the constructor
    sets. *)
Definition createWavHeader (this : AudioFormat) (dataSize : Z)
  : JS.result JS.Buffer :=
  write_wav_fields
    (36 + dataSize)
    (channels this)
    (sampleRate this)
    (sampleRate this * channels this * (bitsPerSample this / 8))
    (channels this * (bitsPerSample this / 8))
    (bitsPerSample this)
    dataSize
    (JS.alloc 44).

End ImprovedAudioConverter.

(* ================================================================== *)
(** ** base64-to-wav converter (src/unnamed/part_001) *)
(* ================================================================== *)

Module Base64ToWavConverter.

(** [mulawDecode(mulawByte)] *)
Definition mulawDecode (mulawByte : Z) : Z :=
  let BIAS := 0x84 in
  let CLIP := 32635 in
  let mulawByte := JS.bnot mulawByte in
  let sign := JS.band mulawByte 0x80 in
  let exponent := JS.band (JS.sar mulawByte 4) 0x07 in
  let mantissa := JS.band mulawByte 0x0F in
  let sample := JS.shl mantissa (exponent + 3) in
  let sample := sample + BIAS in
  let sample := if JS.truthy sign then - sample else sample in
  Z.max (- CLIP) (Z.min CLIP sample).

(** [mulawToPcm(mulawBuffer)] *)
Definition mulawToPcm (mulawBuffer : JS.Buffer) : JS.result JS.Buffer :=
  pcm_of_mulaw mulawDecode mulawBuffer.

(** [createWavBuffer(pcmData)]: header and data in one allocation of
    [44 + dataSize] bytes. *)
Definition createWavBuffer (this : AudioFormat) (pcmData : JS.Buffer)
  : JS.result JS.Buffer :=
  let bytesPerSample := bitsPerSample this / 8 in
  let blockAlign := channels this * bytesPerSample in
  let byteRate := sampleRate this * blockAlign in
  let dataSize := length pcmData in
  let fileSize := 36 + Z.of_nat dataSize in
  let buffer := JS.alloc (44 + dataSize) in
  buffer <- write_wav_fields fileSize (channels this) (sampleRate this)
              byteRate blockAlign (bitsPerSample this) (Z.of_nat dataSize)
              buffer ;;
  JS.Ok (JS.copy pcmData 44 buffer).

(** [convertBase64ToWav(base64Data, outputPath)]: the bytes handed to
    [fs.writeFileSync]. *)
Definition convertBase64ToWav (this : AudioFormat) (base64Data : string)
  : JS.result JS.Buffer :=
  let mulawBuffer := JS.from_base64 base64Data in
  pcmBuffer <- mulawToPcm mulawBuffer ;;
  createWavBuffer this pcmBuffer.

End Base64ToWavConverter.

(* ================================================================== *)
(** ** audio stitcher (src/unnamed/part_002) *)
(* ================================================================== *)

Module AudioStitcher.

(** The stitcher's only field: the base64 chunks added so far. *)
Record t : Type := mk { audioChunks : list string }.

(** [new AudioStitcher()] *)
Definition new : t := {| audioChunks := [] |}.

(** [addChunk(base64Chunk)] *)
Definition addChunk (base64Chunk : string) (this : t) : t :=
  {| audioChunks := audioChunks this ++ [base64Chunk] |}.

(** [reset()] *)
Definition reset (this : t) : t := {| audioChunks := [] |}.

(** [mulawDecode(mulawByte)] *)
Definition mulawDecode (mulawByte : Z) : Z :=
  let BIAS := 0x84 in
  let CLIP := 32635 in
  let mulawByte := JS.bnot mulawByte in
  let sign := JS.band mulawByte 0x80 in
  let exponent := JS.band (JS.sar mulawByte 4) 0x07 in
  let mantissa := JS.band mulawByte 0x0F in
  let sample := JS.shl mantissa (exponent + 3) in
  let sample := sample + BIAS in
  let sample := if JS.truthy sign then - sample else sample in
  Z.max (- CLIP) (Z.min CLIP sample).

(** [mulawToPcm(mulawBuffer)] *)
Definition mulawToPcm (mulawBuffer : JS.Buffer) : JS.result JS.Buffer :=
  pcm_of_mulaw mulawDecode mulawBuffer.

(** [createWavBuffer(pcmData, sampleRate, channels, bitsPerSample)].
    The only call in the source passes [(8000, 1, 16)]; the division by
    8 is exact whenever [bitsPerSample] is a multiple of 8. *)
Definition createWavBuffer (pcmData : JS.Buffer) (sampleRate channels bitsPerSample : Z)
  : JS.result JS.Buffer :=
  let bytesPerSample := bitsPerSample / 8 in
  let blockAlign := channels * bytesPerSample in
  let byteRate := sampleRate * blockAlign in
  let dataSize := length pcmData in
  let fileSize := 36 + Z.of_nat dataSize in
  let buffer := JS.alloc (44 + dataSize) in
  buffer <- write_wav_fields fileSize channels sampleRate byteRate blockAlign
              bitsPerSample (Z.of_nat dataSize) buffer ;;
  JS.Ok (JS.copy pcmData 44 buffer).

(** [createWavFile(outputPath)]: the bytes handed to [fs.writeFileSync],
    or the error raised. *)
Definition createWavFile (this : t) : JS.result JS.Buffer :=
  if (length (audioChunks this) =? 0)%nat
  then JS.Throw (JS.Error "No audio chunks to process")
  else
    let allAudioData := JS.join (audioChunks this) in
    let mulawBuffer := JS.from_base64 allAudioData in
    pcmBuffer <- mulawToPcm mulawBuffer ;;
    createWavBuffer pcmBuffer 8000 1 16.

End AudioStitcher.

(* ================================================================== *)
(** ** Twilio media-stream messages *)
(* ================================================================== *)

(** [data.start] of a start message. *)
Record StartInfo : Type := mkStartInfo {
  start_callSid : option string;
  start_streamSid : option string;
  start_accountSid : option string
}.

(** A parsed WebSocket message.  [data_sequenceNumber] is the value
    [parseInt(msg.sequenceNumber)] yields; [data_payload] is
    [data.media.payload], [None] when [data.media] or its payload is
    missing. *)
Record Data : Type := mkData {
  data_event : string;
  data_sequenceNumber : Z;
  data_payload : option string;
  data_start : option StartInfo;
  data_callSid : option string;
  data_streamSid : option string;
  data_accountSid : option string
}.

(** [msg.event === 'media' && msg.media && msg.media.payload] *)
Definition is_media (msg : Data) : bool :=
  String.eqb (data_event msg) "media" &&
  match data_payload msg with
  | Some payload => JS.truthy_string payload
  | None => false
  end.

(** The payload of a message that passed [is_media]. *)
Definition payload_of (msg : Data) : string :=
  match data_payload msg with
  | Some payload => payload
  | None => EmptyString
  end.

(** A media message with the given sequence number and payload. *)
Definition media_message (sequenceNumber : Z) (payload : string) : Data :=
  {| data_event := "media"; data_sequenceNumber := sequenceNumber;
     data_payload := Some payload; data_start := None;
     data_callSid := None; data_streamSid := None; data_accountSid := None |}.

(** A start message carrying [data.start.callSid]. *)
Definition start_message (callSid : string) : Data :=
  {| data_event := "start"; data_sequenceNumber := 1;
     data_payload := None;
     data_start := Some {| start_callSid := Some callSid;
                           start_streamSid := None;
                           start_accountSid := None |};
     data_callSid := None; data_streamSid := None; data_accountSid := None |}.

(** A stop message. *)
Definition stop_message : Data :=
  {| data_event := "stop"; data_sequenceNumber := 0;
     data_payload := None; data_start := None;
     data_callSid := None; data_streamSid := None; data_accountSid := None |}.

(* ================================================================== *)
(** ** Twilio array converter (second script of src/dialogflow-service.js) *)
(* ================================================================== *)

Module TwilioAudioProcessor.

(** [mediaMessages.sort((a, b) => parseInt(a.sequenceNumber) -
    parseInt(b.sequenceNumber))].  The runtime's sort is stable, and a
    stable sort by a total order has one result; it is computed here by
    insertion. *)
Fixpoint insert (msg : Data) (sorted : list Data) : list Data :=
  match sorted with
  | [] => [msg]
  | x :: rest =>
      if data_sequenceNumber msg <=? data_sequenceNumber x
      then msg :: x :: rest
      else x :: insert msg rest
  end.

Definition sort (messages : list Data) : list Data :=
  fold_right insert [] messages.

(** The argument of [extractAudioFromTwilioArray]: parsed JSON, an array
    of messages or something else. *)
Inductive Json : Type :=
| JArray (items : list Data)
| JOther.

(** [extractAudioFromTwilioArray(jsonArray)] *)
Definition extractAudioFromTwilioArray (jsonArray : Json) : JS.result JS.Buffer :=
  match jsonArray with
  | JOther => JS.Throw (JS.Error "Data is not an array")
  | JArray items =>
      let mediaMessages := filter is_media items in
      if (length mediaMessages =? 0)%nat
      then JS.Throw (JS.Error "No media messages found")
      else
        let mediaMessages := sort mediaMessages in
        let audioBuffers :=
          map (fun msg => JS.from_base64 (payload_of msg)) mediaMessages in
        JS.Ok (JS.concat audioBuffers)
  end.

(** [mulawDecode(mulawByte)] *)
Definition mulawDecode (mulawByte : Z) : Z :=
  let BIAS := 0x84 in
  let CLIP := 32635 in
  let mulawByte := JS.band (JS.bnot mulawByte) 0xFF in
  let sign := JS.band mulawByte 0x80 in
  let exponent := JS.band (JS.sar mulawByte 4) 0x07 in
  let mantissa := JS.band mulawByte 0x0F in
  let linearValue :=
    if exponent =? 0
    then JS.shl mantissa 4 + BIAS
    else JS.shl (JS.bor mantissa 0x10) (exponent + 3) + BIAS in
  let linearValue := if JS.truthy sign then - linearValue else linearValue in
  Z.max (- CLIP) (Z.min CLIP linearValue).

(** [mulawToPcm(mulawBuffer)] *)
Definition mulawToPcm (mulawBuffer : JS.Buffer) : JS.result JS.Buffer :=
  pcm_of_mulaw mulawDecode mulawBuffer.

(** [createWavHeader(dataSize)], with [this] the processor's format
    fields. *)
Definition createWavHeader (this : AudioFormat) (dataSize : Z)
  : JS.result JS.Buffer :=
  write_wav_fields
    (36 + dataSize)
    (channels this)
    (sampleRate this)
    (sampleRate this * channels this * (bitsPerSample this / 8))
    (channels this * (bitsPerSample this / 8))
    (bitsPerSample this)
    dataSize
    (JS.alloc 44).

(** What [convertToWav] does with the file it built: it writes it to
    [outputPath] (and returns [false]), or returns the buffer. *)
Inductive WavOutput : Type :=
| Written (outputPath : string) (wavBuffer : JS.Buffer)
| Returned (wavBuffer : JS.Buffer).

(** [convertToWav(jsonArray, outputPath, options)] for [options] without
    a gain (or with gain 1.0), where the gain step is skipped.  The
    gain step itself multiplies samples in floating point and is not
    part of this model. *)
Definition convertToWav (this : AudioFormat) (jsonArray : Json)
    (outputPath : option string) : JS.result WavOutput :=
  mulawBuffer <- extractAudioFromTwilioArray jsonArray ;;
  pcmBuffer <- mulawToPcm mulawBuffer ;;
  wavHeader <- createWavHeader this (Z.of_nat (length pcmBuffer)) ;;
  let wavBuffer := JS.concat [wavHeader; pcmBuffer] in
  match outputPath with
  | Some path =>
      if JS.truthy_string path
      then JS.Ok (Written path wavBuffer)
      else JS.Ok (Returned wavBuffer)
  | None => JS.Ok (Returned wavBuffer)
  end.

End TwilioAudioProcessor.

(* ================================================================== *)
(** ** Live speech server: the chunk buffer (src/gstt.js) *)
(* ================================================================== *)

Module AudioBuffer.

(** The [callInfo] argument of [setSessionInfo], its fields as a
    template literal prints them. *)
Record CallInfo : Type := mkCallInfo {
  from : string;
  to : string;
  ci_fromCountry : string;
  ci_toCountry : string;
  fromCity : string;
  fromState : string
}.

(** The [webSocketData] argument of [setSessionInfo]. *)
Record SessionInfo : Type := mkSessionInfo {
  si_callSid : string;
  si_streamSid : string;
  si_accountSid : string
}.

(** The session identifier fields of the buffer; [None] is [null]. *)
Record Session : Type := mkSession {
  sessionId : option string;
  callSid : option string;
  streamSid : option string;
  accountSid : option string;
  fromNumber : option string;
  toNumber : option string;
  fromCountry : option string;
  toCountry : option string;
  fromLocation : option string;
  sessionStartTime : option Z
}.

Definition no_session : Session :=
  {| sessionId := None; callSid := None; streamSid := None;
     accountSid := None; fromNumber := None; toNumber := None;
     fromCountry := None; toCountry := None; fromLocation := None;
     sessionStartTime := None |}.

(** The buffer object.  [processingInterval] is the handle of the armed
    interval timer (its period), [None] when no timer is armed. *)
Record t : Type := mk {
  audioChunks : list JS.Buffer;
  processingInterval : option Z;
  processingIntervalTime : Z;
  isRecording : bool;
  lastProcessTime : Z;
  chunkCount : Z;
  minChunksBeforeProcessing : Z;
  session : Session
}.

(** [new AudioBuffer()] *)
Definition new : t :=
  {| audioChunks := [];
     processingInterval := None;
     processingIntervalTime := 4000;
     isRecording := false;
     lastProcessTime := 0;
     chunkCount := 0;
     minChunksBeforeProcessing := 100;
     session := no_session |}.

(** [text.replace(pattern, replacement)] with a string pattern: the
    first occurrence only. *)
Definition replace_first (pattern replacement text : string) : string :=
  match String.index 0 pattern text with
  | Some i =>
      String.append (String.substring 0 i text)
        (String.append replacement
           (String.substring (i + String.length pattern)
              (String.length text - i - String.length pattern) text))
  | None => text
  end.

(** [setSessionInfo(webSocketData, callInfo = null)]; [now] is the
    clock read by [new Date()]. *)
Definition setSessionInfo (now : Z) (webSocketData : SessionInfo)
    (callInfo : option CallInfo) (this : t) : t :=
  let caller (number destination country destCountry location : string) : Session :=
    {| sessionId := Some (si_callSid webSocketData);
       callSid := Some (si_callSid webSocketData);
       streamSid := Some (si_streamSid webSocketData);
       accountSid := Some (si_accountSid webSocketData);
       fromNumber := Some number;
       toNumber := Some destination;
       fromCountry := Some country;
       toCountry := Some destCountry;
       fromLocation := Some location;
       sessionStartTime := Some now |} in
  {| audioChunks := audioChunks this;
     processingInterval := processingInterval this;
     processingIntervalTime := processingIntervalTime this;
     isRecording := isRecording this;
     lastProcessTime := lastProcessTime this;
     chunkCount := chunkCount this;
     minChunksBeforeProcessing := minChunksBeforeProcessing this;
     session :=
       match callInfo with
       | Some info =>
           caller (from info) (to info) (ci_fromCountry info) (ci_toCountry info)
             (replace_first ", " EmptyString
                (String.append (fromCity info)
                   (String.append ", " (fromState info))))
       | None => caller "unknown" "unknown" "unknown" "unknown" "unknown"
       end |}.

(** [addAudioChunk(base64Audio)]: the first chunk of a recording arms
    the interval timer. *)
Definition addAudioChunk (base64Audio : string) (this : t) : t :=
  let audioBuffer := JS.from_base64 base64Audio in
  {| audioChunks := audioChunks this ++ [audioBuffer];
     processingInterval :=
       if isRecording this then processingInterval this
       else Some (processingIntervalTime this);
     processingIntervalTime := processingIntervalTime this;
     isRecording := true;
     lastProcessTime := lastProcessTime this;
     chunkCount := chunkCount this + 1;
     minChunksBeforeProcessing := minChunksBeforeProcessing this;
     session := session this |}.

(** What [processAccumulatedAudio] hands to [transcribeAudioMulaw]: the
    concatenated chunks, transcribed and logged under the buffer's
    current session id. *)
Record Segment : Type := mkSegment {
  seg_sessionId : option string;
  seg_bytes : JS.Buffer
}.

(** How a call of the async method [processAccumulatedAudio] proceeds up
    to its [await]: it returns without processing, it hands a segment to
    the transcriber and suspends, or its promise is rejected. *)
Inductive outcome : Type :=
| Skipped
| Flushed (segment : Segment)
| Rejected (e : JS.exn).

(** [processAccumulatedAudio()] up to [await this.transcribeAudioMulaw];
    [now] is the clock read by [Date.now()].  The session duration that
    is logged before the chunks are concatenated reads
    [this.sessionStartTime.getTime()], a TypeError while
    [sessionStartTime] is [null]. *)
Definition processAccumulatedAudio (now : Z) (this : t) : t * outcome :=
  if now - lastProcessTime this <? 3000 then (this, Skipped)
  else if Z.of_nat (length (audioChunks this)) <? minChunksBeforeProcessing this
  then (this, Skipped)
  else
    match sessionStartTime (session this) with
    | None => (this, Rejected JS.TypeError)
    | Some _ =>
        let completeAudio := JS.concat (audioChunks this) in
        ({| audioChunks := audioChunks this;
            processingInterval := processingInterval this;
            processingIntervalTime := processingIntervalTime this;
            isRecording := isRecording this;
            lastProcessTime := now;
            chunkCount := chunkCount this;
            minChunksBeforeProcessing := minChunksBeforeProcessing this;
            session := session this |},
         Flushed {| seg_sessionId := sessionId (session this);
                    seg_bytes := completeAudio |})
    end.

(** The rest of [processAccumulatedAudio], run when the transcription
    has settled: [this.audioChunks = []; this.chunkCount = 0]. *)
Definition processAccumulatedAudio_resume (this : t) : t :=
  {| audioChunks := [];
     processingInterval := processingInterval this;
     processingIntervalTime := processingIntervalTime this;
     isRecording := isRecording this;
     lastProcessTime := lastProcessTime this;
     chunkCount := 0;
     minChunksBeforeProcessing := minChunksBeforeProcessing this;
     session := session this |}.

(** [forceProcessAudio()] up to its [await]. *)
Definition forceProcessAudio (now : Z) (this : t) : t * outcome :=
  let this :=
    {| audioChunks := audioChunks this;
       processingInterval := None;
       processingIntervalTime := processingIntervalTime this;
       isRecording := isRecording this;
       lastProcessTime := lastProcessTime this;
       chunkCount := chunkCount this;
       minChunksBeforeProcessing := minChunksBeforeProcessing this;
       session := session this |} in
  if (0 <? length (audioChunks this))%nat
  then processAccumulatedAudio now this
  else (this, Skipped).

(** [reset()], apart from its [activeCalls.delete(this.callSid)], which
    the server model performs. *)
Definition reset (this : t) : t :=
  {| audioChunks := [];
     processingInterval := None;
     processingIntervalTime := processingIntervalTime this;
     isRecording := false;
     lastProcessTime := 0;
     chunkCount := 0;
     minChunksBeforeProcessing := minChunksBeforeProcessing this;
     session := no_session |}.

(** [mulawToPcm(mulawByte)]: no clipping step. *)
Definition mulawToPcm (mulawByte : Z) : Z :=
  let BIAS := 0x84 in
  let CLIP := 32635 in
  let mulawByte := JS.bnot mulawByte in
  let sign := JS.band mulawByte 0x80 in
  let exponent := JS.band (JS.sar mulawByte 4) 0x07 in
  let mantissa := JS.band mulawByte 0x0F in
  let sample := JS.shl mantissa (exponent + 3) in
  let sample := sample + BIAS in
  let sample := if negb (exponent =? 0) then sample + JS.shl 1 (exponent + 2)
                else sample in
  if negb (sign =? 0) then - sample else sample.

(** [createWavHeader(dataLength)] *)
Definition createWavHeader (dataLength : Z) : JS.result JS.Buffer :=
  let header := JS.alloc 44 in
  let sampleRate := 8000 in
  let channels := 1 in
  let bitsPerSample := 16 in
  header <- JS.write "RIFF" 0 header ;;
  header <- JS.writeUInt32LE (36 + dataLength) 4 header ;;
  header <- JS.write "WAVE" 8 header ;;
  header <- JS.write "fmt " 12 header ;;
  header <- JS.writeUInt32LE 16 16 header ;;
  header <- JS.writeUInt16LE 1 20 header ;;
  header <- JS.writeUInt16LE channels 22 header ;;
  header <- JS.writeUInt32LE sampleRate 24 header ;;
  header <- JS.writeUInt32LE (sampleRate * channels * bitsPerSample / 8) 28 header ;;
  header <- JS.writeUInt16LE (channels * bitsPerSample / 8) 32 header ;;
  header <- JS.writeUInt16LE bitsPerSample 34 header ;;
  header <- JS.write "data" 36 header ;;
  JS.writeUInt32LE dataLength 40 header.

(** [createWavBuffer(mulawData)]: the samples go through an
    [Int16Array], whose bytes (little-endian) become the PCM buffer. *)
Definition createWavBuffer (mulawData : JS.Buffer) : JS.result JS.Buffer :=
  let pcmData := map (fun b => JS.ToInt16 (mulawToPcm b)) mulawData in
  let pcmBuffer := flat_map (fun v => JS.le_bytes 2 (v mod 65536)) pcmData in
  wavHeader <- createWavHeader (Z.of_nat (length pcmBuffer)) ;;
  JS.Ok (JS.concat [wavHeader; pcmBuffer]).

End AudioBuffer.

(* ================================================================== *)
(** ** Live speech server: module state and WebSocket handler (src/gstt.js) *)
(* ================================================================== *)

Module Server.

(** What runs when the transcription awaited by a suspended
    [processAccumulatedAudio] settles: the method's last two
    assignments, and for the call made by the close handler the
    [then(() => audioBuffer.reset())] after them. *)
Inductive continuation : Type :=
| Resume
| ResumeThenReset.

(** The module-level state: the one [audioBuffer] instance, the
    [activeCalls] map, and the suspended async calls. *)
Record t : Type := mk {
  audioBuffer : AudioBuffer.t;
  activeCalls : list (string * AudioBuffer.CallInfo);
  suspended : list continuation
}.

(** The state once the module is loaded:
    [const activeCalls = new Map()], [const audioBuffer = new AudioBuffer()]. *)
Definition init : t :=
  {| audioBuffer := AudioBuffer.new; activeCalls := []; suspended := [] |}.

(** What the server does towards its collaborators: a call of
    [transcribeAudioMulaw] with a segment, or a promise rejection nobody
    handles. *)
Inductive effect : Type :=
| TranscribeAudioMulaw (segment : AudioBuffer.Segment)
| UnhandledRejection (e : JS.exn).

(** [activeCalls.set(key, value)] and [activeCalls.delete(key)] *)
Definition map_delete (key : string) (m : list (string * AudioBuffer.CallInfo))
  : list (string * AudioBuffer.CallInfo) :=
  filter (fun entry => negb (String.eqb (fst entry) key)) m.

Definition map_set (key : string) (value : AudioBuffer.CallInfo)
    (m : list (string * AudioBuffer.CallInfo))
  : list (string * AudioBuffer.CallInfo) :=
  map_delete key m ++ [(key, value)].

Definition with_buffer (b : AudioBuffer.t) (s : t) : t :=
  {| audioBuffer := b; activeCalls := activeCalls s; suspended := suspended s |}.

(** [audioBuffer.reset()], with its [activeCalls.delete(this.callSid)]. *)
Definition reset (s : t) : t :=
  {| audioBuffer := AudioBuffer.reset (audioBuffer s);
     activeCalls :=
       match AudioBuffer.callSid (AudioBuffer.session (audioBuffer s)) with
       | Some key =>
           if JS.truthy_string key then map_delete key (activeCalls s)
           else activeCalls s
       | None => activeCalls s
       end;
     suspended := suspended s |}.

(** Run a continuation. *)
Definition continue (k : continuation) (s : t) : t :=
  let s := with_buffer (AudioBuffer.processAccumulatedAudio_resume (audioBuffer s)) s in
  match k with
  | Resume => s
  | ResumeThenReset => reset s
  end.

(** The state and effects once an async call that reached [outcome]
    yields to the event loop.  A flush of a non-empty segment waits for
    the recognizer, so its continuation stays suspended; an empty
    segment makes [transcribeAudioMulaw] return at once, and a skipped
    call has nothing to wait for: what follows them runs before the next
    event.  After a rejection nothing follows. *)
Definition launched (k : continuation) (o : AudioBuffer.outcome) (s : t)
  : t * list effect :=
  match o with
  | AudioBuffer.Skipped =>
      (match k with Resume => s | ResumeThenReset => reset s end, [])
  | AudioBuffer.Flushed segment =>
      match AudioBuffer.seg_bytes segment with
      | [] => (continue k s, [TranscribeAudioMulaw segment])
      | _ :: _ =>
          ({| audioBuffer := audioBuffer s;
              activeCalls := activeCalls s;
              suspended := suspended s ++ [k] |},
           [TranscribeAudioMulaw segment])
      end
  | AudioBuffer.Rejected e => (s, [UnhandledRejection e])
  end.

(** ['unknown'] fallback of the start handler. *)
Definition or_unknown (a : option string) : string :=
  match a with
  | Some s => if JS.truthy_string s then s else "unknown"
  | None => "unknown"
  end.

(** [connection.on("message", ...)] for a utf8 message whose JSON
    parses to [data]; [now] is the clock. *)
Definition on_message (now : Z) (data : Data) (s : t) : t * list effect :=
  if String.eqb (data_event data) "connected" then (s, [])
  else if String.eqb (data_event data) "start" then
    let from_start (field : StartInfo -> option string) : option string :=
      match data_start data with
      | Some info => field info
      | None => None
      end in
    let sessionInfo :=
      {| AudioBuffer.si_callSid :=
           or_unknown (JS.or_else (from_start start_callSid) (data_callSid data));
         AudioBuffer.si_streamSid :=
           or_unknown (JS.or_else (from_start start_streamSid) (data_streamSid data));
         AudioBuffer.si_accountSid :=
           or_unknown (JS.or_else (from_start start_accountSid) (data_accountSid data)) |} in
    let s := reset s in
    (with_buffer (AudioBuffer.setSessionInfo now sessionInfo None (audioBuffer s)) s, [])
  else if is_media data then
    (with_buffer (AudioBuffer.addAudioChunk (payload_of data) (audioBuffer s)) s, [])
  else if String.eqb (data_event data) "stop" then
    let (b, o) := AudioBuffer.forceProcessAudio now (audioBuffer s) in
    launched Resume o (with_buffer b s)
  else (s, []).

(** [connection.on("close", ...)]:
    [audioBuffer.forceProcessAudio().then(() => audioBuffer.reset())]. *)
Definition on_close (now : Z) (s : t) : t * list effect :=
  let (b, o) := AudioBuffer.forceProcessAudio now (audioBuffer s) in
  launched ResumeThenReset o (with_buffer b s).

(** The callback given to [setInterval]; it runs while the timer is
    armed. *)
Definition on_tick (now : Z) (s : t) : t * list effect :=
  match AudioBuffer.processingInterval (audioBuffer s) with
  | None => (s, [])
  | Some _ =>
      let (b, o) := AudioBuffer.processAccumulatedAudio now (audioBuffer s) in
      launched Resume o (with_buffer b s)
  end.

(** The [k]-th suspended call resumes. *)
Definition on_settled (k : nat) (s : t) : t :=
  match nth_error (suspended s) k with
  | None => s
  | Some c =>
      continue c
        {| audioBuffer := audioBuffer s;
           activeCalls := activeCalls s;
           suspended := firstn k (suspended s) ++ skipn (S k) (suspended s) |}
  end.

(** The events of the event loop.  Every accepted connection registers
    the same two handlers; [connection] tells which connection the event
    came from. *)
Inductive event : Type :=
| Message (connection : nat) (data : Data)
| Close (connection : nat)
| Tick
| Settled (k : nat).

Definition step (now : Z) (e : event) (s : t) : t * list effect :=
  match e with
  | Message _ data => on_message now data s
  | Close _ => on_close now s
  | Tick => on_tick now s
  | Settled k => (on_settled k s, [])
  end.

(** A run of the event loop over timed events, with the effects in
    order. *)
Fixpoint run (events : list (Z * event)) (s : t) : t * list effect :=
  match events with
  | [] => (s, [])
  | (now, e) :: rest =>
      let (s1, effects1) := step now e s in
      let (s2, effects2) := run rest s1 in
      (s2, effects1 ++ effects2)
  end.

(** The decoded payloads of the media messages that [connection]
    delivered, in order. *)
Definition frames_of (connection : nat) (events : list (Z * event)) : list JS.Buffer :=
  flat_map
    (fun timed =>
       match snd timed with
       | Message c data =>
           if (c =? connection)%nat && is_media data
           then [JS.from_base64 (payload_of data)]
           else []
       | _ => []
       end)
    events.

(** The segments handed to the transcriber. *)
Definition segments (effects : list effect) : list AudioBuffer.Segment :=
  flat_map
    (fun e => match e with TranscribeAudioMulaw segment => [segment] | _ => [] end)
    effects.

End Server.

(* ================================================================== *)
(** ** Vocabulary of the properties *)
(* ================================================================== *)

(** The 256 byte values. *)
Definition all_bytes : list Z := map Z.of_nat (seq 0 256).

(** Decide membership in an interval. *)
Definition within (lo hi v : Z) : bool := (lo <=? v) && (v <=? hi).

(** A value that a signed 16-bit sample can hold. *)
Definition in_int16 (v : Z) : Prop := -32768 <= v <= 32767.

(** The canonical 44-byte RIFF/WAVE header for PCM, mono, 8000 Hz,
    16 bits, read back from the front of [wav]: chunk tags, chunk size
    [36 + dataSize], format chunk, and data chunk size [dataSize]. *)
Definition telephony_wav_header (wav : JS.Buffer) (dataSize : Z) : Prop :=
  firstn 4 wav = JS.bytes_of_string "RIFF" /\
  JS.readUInt32LE 4 wav = JS.Ok (36 + dataSize) /\
  firstn 4 (skipn 8 wav) = JS.bytes_of_string "WAVE" /\
  firstn 4 (skipn 12 wav) = JS.bytes_of_string "fmt " /\
  JS.readUInt32LE 16 wav = JS.Ok 16 /\
  JS.readUInt16LE 20 wav = JS.Ok 1 /\
  JS.readUInt16LE 22 wav = JS.Ok 1 /\
  JS.readUInt32LE 24 wav = JS.Ok 8000 /\
  JS.readUInt32LE 28 wav = JS.Ok (8000 * 1 * 16 / 8) /\
  JS.readUInt16LE 32 wav = JS.Ok (1 * 16 / 8) /\
  JS.readUInt16LE 34 wav = JS.Ok 16 /\
  firstn 4 (skipn 36 wav) = JS.bytes_of_string "data" /\
  JS.readUInt32LE 40 wav = JS.Ok dataSize.

(** The bytes [write_wav_fields] leaves in the first 44 positions. *)
Definition header_bytes (fileSize channelCount rate byteRate blockAlign bits
                         dataSize : Z) : list Z :=
  JS.bytes_of_string "RIFF" ++ JS.le_bytes 4 fileSize ++
  JS.bytes_of_string "WAVE" ++ JS.bytes_of_string "fmt " ++
  JS.le_bytes 4 16 ++ JS.le_bytes 2 1 ++ JS.le_bytes 2 channelCount ++
  JS.le_bytes 4 rate ++ JS.le_bytes 4 byteRate ++ JS.le_bytes 2 blockAlign ++
  JS.le_bytes 2 bits ++ JS.bytes_of_string "data" ++ JS.le_bytes 4 dataSize.

(** The empty WAV file: header only. *)
Definition empty_wav : JS.Buffer :=
  [82; 73; 70; 70; 36; 0; 0; 0; 87; 65; 86; 69; 102; 109; 116; 32;
   16; 0; 0; 0; 1; 0; 1; 0; 64; 31; 0; 0; 128; 62; 0; 0; 2; 0; 16; 0;
   100; 97; 116; 97; 0; 0; 0; 0].

(** Ascending order of sequence numbers. *)
Definition seq_le (a b : Data) : Prop :=
  data_sequenceNumber a <= data_sequenceNumber b.

(** The messages of a list that carry sequence number [k], in their
    order in the list. *)
Definition with_sequenceNumber (k : Z) (messages : list Data) : list Data :=
  filter (fun msg => data_sequenceNumber msg =? k) messages.

(** The flush as the specification words it: the payload bytes of the
    pending frames, concatenated in ascending order of sequence
    number. *)
Definition spec_flush_bytes (frames : list Data) : JS.Buffer :=
  JS.concat (map (fun msg => JS.from_base64 (payload_of msg))
               (TwilioAudioProcessor.sort frames)).

(** The media messages among timed events, whichever connection they
    came from. *)
Definition media_of (events : list (Z * Server.event)) : list Data :=
  flat_map
    (fun timed =>
       match snd timed with
       | Server.Message _ data => if is_media data then [data] else []
       | _ => []
       end)
    events.

(** The gate of the interval callback: at least 100 chunks are pending
    and at least 3000 ms have passed since the last processing. *)
Definition due (now : Z) (this : AudioBuffer.t) : Prop :=
  100 <= Z.of_nat (length (AudioBuffer.audioChunks this)) /\
  3000 <= now - AudioBuffer.lastProcessTime this.

(* ================================================================== *)
(** ** Scenarios *)
(* ================================================================== *)

(** Two calls at once.  Connection 1 carries call [CA-B], whose frames
    are the byte 0xFF; connection 2 carries call [CA-A], whose frames
    are the byte 0x00.  Both start, fifty frames of each arrive
    alternately, and the interval timer fires. *)
Definition two_calls : list (Z * Server.event) :=
  (1000000, Server.Message 1 (start_message "CA-B")) ::
  (1000050, Server.Message 2 (start_message "CA-A")) ::
  flat_map
    (fun i =>
       [(1000100 + 40 * Z.of_nat i,
         Server.Message 1 (media_message (Z.of_nat (2 + i)) "/w=="));
        (1000120 + 40 * Z.of_nat i,
         Server.Message 2 (media_message (Z.of_nat (2 + i)) "AA=="))])
    (seq 0 50)
  ++ [(1004100, Server.Tick)].

(** One call that delivers forty frames before it ends. *)
Definition forty_frames : list (Z * Server.event) :=
  (1000000, Server.Message 1 (start_message "CA-A")) ::
  map (fun i => (1000100 + 20 * Z.of_nat i,
                 Server.Message 1 (media_message (Z.of_nat (2 + i)) "/w==")))
      (seq 0 40).

(** One call whose first three frames carry the sequence numbers 3, 1, 2
    and the payloads C, A, B, followed by 97 frames numbered 4 to 100
    with payload D; then the interval timer fires. *)
Definition out_of_order_frames : list Data :=
  media_message 3 "Qw==" :: media_message 1 "QQ==" :: media_message 2 "Qg==" ::
  map (fun i => media_message (Z.of_nat (4 + i)) "RA==") (seq 0 97).

Definition out_of_order_call : list (Z * Server.event) :=
  (1000000, Server.Message 1 (start_message "CA-A")) ::
  map (fun msg => (1000100, Server.Message 1 msg)) out_of_order_frames
  ++ [(1004100, Server.Tick)].

(** The server while a started call has a full buffer: 100 one-byte
    chunks pending, timer armed, nothing processed yet. *)
Definition full_server : Server.t :=
  fst (Server.run
         ((1000000, Server.Message 1 (start_message "CA-A")) ::
          map (fun i => (1000100, Server.Message 1
                           (media_message (Z.of_nat (2 + i)) "/w==")))
              (seq 0 100))
         Server.init).

(** The buffer once [forceProcessAudio] has cleared its interval timer. *)
Definition disarmed (this : AudioBuffer.t) : AudioBuffer.t :=
  {| AudioBuffer.audioChunks := AudioBuffer.audioChunks this;
     AudioBuffer.processingInterval := None;
     AudioBuffer.processingIntervalTime := AudioBuffer.processingIntervalTime this;
     AudioBuffer.isRecording := AudioBuffer.isRecording this;
     AudioBuffer.lastProcessTime := AudioBuffer.lastProcessTime this;
     AudioBuffer.chunkCount := AudioBuffer.chunkCount this;
     AudioBuffer.minChunksBeforeProcessing :=
       AudioBuffer.minChunksBeforeProcessing this;
     AudioBuffer.session := AudioBuffer.session this |}.

(** The forty-frame call, then its stop message and the close of its
    connection. *)
Definition forty_frames_then_end (stopTime closeTime : Z) : list (Z * Server.event) :=
  forty_frames ++
  [(stopTime, Server.Message 1 stop_message); (closeTime, Server.Close 1)].

(* ================================================================== *)
(** ** Dialogflow service (first script of src/dialogflow-service.js) *)
(* ================================================================== *)

Module DialogflowCXService.

(** [text.replace(/c/g, '')] for a pattern that matches single
    characters: every matching character is removed.  A character
    stands for the code unit of its value. *)
Fixpoint remove_all (matches : ascii -> bool) (text : string) : string :=
  match text with
  | EmptyString => EmptyString
  | String c rest =>
      if matches c then remove_all matches rest
      else String c (remove_all matches rest)
  end.

(** [\+], [\s] and [\-]: among the code units below 256 the class [\s]
    holds tab, line feed, vertical tab, form feed, carriage return,
    space and the no-break space. *)
Definition is_plus (c : ascii) : bool := (N_of_ascii c =? 43)%N.

Definition is_space (c : ascii) : bool :=
  let n := N_of_ascii c in
  ((9 <=? n) && (n <=? 13) || (n =? 32) || (n =? 160))%N.

Definition is_dash (c : ascii) : bool := (N_of_ascii c =? 45)%N.

(** [generateSessionIdFromPhone(phoneNumber)] *)
Definition generateSessionIdFromPhone (phoneNumber : string) : string :=
  remove_all is_dash (remove_all is_space (remove_all is_plus phoneNumber)).

End DialogflowCXService.

(* ================================================================== *)
(** ** Vocabulary of the further properties *)
(* ================================================================== *)

(** A byte value. *)
Definition is_byte (b : Z) : Prop := 0 <= b <= 255.

(** The 16-bit little-endian samples a conversion loop leaves for the
    bytes of [mulawBuffer]. *)
Definition samples_of (decode : Z -> Z) (mulawBuffer : JS.Buffer) : JS.Buffer :=
  flat_map (fun b => JS.le_bytes 2 (decode b mod 65536)) mulawBuffer.

(** [pcm] holds, at byte offset [start + 2 * i], the sample [decode]
    gives for the [i]-th byte of [mulawBuffer]. *)
Definition holds_samples (decode : Z -> Z) (mulawBuffer : JS.Buffer)
    (start : nat) (pcm : JS.Buffer) : Prop :=
  forall i, (i < length mulawBuffer)%nat ->
    JS.readInt16LE (start + 2 * i) pcm = JS.Ok (decode (nth i mulawBuffer 0)).


(** The order test on a pair of bytes [a < b], on the decoded values
    [improved] and [twilio] of the two branching decoders: increasing
    on the low half, decreasing on the high half, never equal. *)
Definition ordered_pair (improved twilio : list Z) (a b : Z) : bool :=
  implb (a <? b)
    (implb (b <=? 127)
       (nth (Z.to_nat a) improved 0 <? nth (Z.to_nat b) improved 0) &&
     implb (128 <=? a)
       (nth (Z.to_nat b) improved 0 <? nth (Z.to_nat a) improved 0) &&
     negb (nth (Z.to_nat a) improved 0 =? nth (Z.to_nat b) improved 0) &&
     negb (nth (Z.to_nat a) twilio 0 =? nth (Z.to_nat b) twilio 0)).

(** An event that is a media message (on any connection), and one that
    is a media message or a timer tick. *)
Definition is_media_event (timed : Z * Server.event) : Prop :=
  exists connection data,
    snd timed = Server.Message connection data /\ is_media data = true.

Definition is_media_or_tick (timed : Z * Server.event) : Prop :=
  is_media_event timed \/ snd timed = Server.Tick.

(** The chunks a list of frames decodes to, in the order of the list. *)
Definition chunks_of (frames : list Data) : list JS.Buffer :=
  map (fun msg => JS.from_base64 (payload_of msg)) frames.

(** The characters [generateSessionIdFromPhone] removes. *)
Definition removed_from_phone (c : ascii) : bool :=
  DialogflowCXService.is_plus c || DialogflowCXService.is_space c
  || DialogflowCXService.is_dash c.

(** The state in which the forty-frame call has been stopped. *)
Definition forty_frames_stopped : Server.t :=
  fst (Server.run (forty_frames ++ [(1001000, Server.Message 1 stop_message)])
         Server.init).

(* ================================================================== *)
(** * Properties *)
(* ================================================================== *)

(** ** The mu-law decoders *)

(** A boolean test that holds on the enumeration of the bytes holds on
    every byte. *)
Lemma all_bytes_complete (b : Z) : 0 <= b <= 255 -> In b all_bytes.
Proof.
  intros Hb. unfold all_bytes.
  apply in_map_iff. exists (Z.to_nat b). split.
  - apply Z2Nat.id. lia.
  - apply in_seq. lia.
Qed.

Lemma for_all_bytes (P : Z -> bool) :
  forallb P all_bytes = true -> forall b, 0 <= b <= 255 -> P b = true.
Proof.
  intros Hall b Hb.
  rewrite forallb_forall in Hall.
  apply Hall, all_bytes_complete, Hb.
Qed.

Lemma within_spec (lo hi v : Z) : within lo hi v = true <-> lo <= v <= hi.
Proof.
  unfold within. rewrite andb_true_iff, !Z.leb_le. tauto.
Qed.

Lemma in_int16_within (v : Z) : within (-32768) 32767 v = true -> in_int16 v.
Proof. intros H. apply within_spec in H. exact H. Qed.

(** The conversion loop succeeds on every buffer whose bytes decode to
    16-bit values, and yields two bytes per input byte. *)
Lemma splice_length (bytes : list Z) (offset : nat) (buf : JS.Buffer) :
  (offset + length bytes <= length buf)%nat ->
  length (JS.splice bytes offset buf) = length buf.
Proof.
  intros Hfit. unfold JS.splice.
  rewrite !length_app, length_firstn, length_skipn. lia.
Qed.

Lemma le_bytes_length (n : nat) (v : Z) : length (JS.le_bytes n v) = n.
Proof.
  revert v. induction n as [|n IH]; intros v; simpl.
  - reflexivity.
  - now rewrite IH.
Qed.

Lemma writeInt16LE_fits (value : Z) (offset : nat) (buf : JS.Buffer) :
  in_int16 value -> (offset + 2 <= length buf)%nat ->
  exists buf', JS.writeInt16LE value offset buf = JS.Ok buf' /\
               length buf' = length buf.
Proof.
  intros Hv Hfit. unfold JS.writeInt16LE.
  assert (Hguard : (-32768 <=? value) && (value <=? 32767) = true)
    by (apply within_spec, Hv).
  rewrite Hguard.
  apply Nat.leb_le in Hfit as Hleb. rewrite Hleb.
  eexists. split; [reflexivity|].
  apply splice_length. rewrite le_bytes_length. exact Hfit.
Qed.

Section ConversionLoopFacts.

Variable decode : Z -> Z.

Lemma pcm_loop_total (rest : JS.Buffer) :
  forall (i : nat) (pcmBuffer : JS.Buffer),
    Forall (fun b => in_int16 (decode b)) rest ->
    length pcmBuffer = ((i + length rest) * 2)%nat ->
    exists pcm, pcm_loop decode i rest pcmBuffer = JS.Ok pcm /\
                length pcm = length pcmBuffer.
Proof.
  induction rest as [|b rest IH]; intros i pcmBuffer Hall Hlen; simpl.
  - exists pcmBuffer. split; reflexivity.
  - inversion Hall as [|? ? Hv Hrest]; subst.
    destruct (writeInt16LE_fits (decode b) (i * 2) pcmBuffer Hv)
      as [buf' [Hw Hl]].
    { simpl in Hlen. lia. }
    rewrite Hw. simpl.
    destruct (IH (S i) buf' Hrest) as [pcm [Hloop Hpcm]].
    { rewrite Hl, Hlen. simpl. lia. }
    exists pcm. split; [exact Hloop | congruence].
Qed.

Lemma pcm_of_mulaw_total (mulawBuffer : JS.Buffer) :
  Forall (fun b => in_int16 (decode b)) mulawBuffer ->
  exists pcm, pcm_of_mulaw decode mulawBuffer = JS.Ok pcm /\
              length pcm = (length mulawBuffer * 2)%nat.
Proof.
  intros Hall. unfold pcm_of_mulaw.
  destruct (pcm_loop_total mulawBuffer 0 (JS.alloc (length mulawBuffer * 2)) Hall)
    as [pcm [Hloop Hlen]].
  - unfold JS.alloc. rewrite repeat_length. reflexivity.
  - exists pcm. split; [exact Hloop|].
    rewrite Hlen. unfold JS.alloc. apply repeat_length.
Qed.

End ConversionLoopFacts.

(** Every decoder of the repository, checked on the 256 bytes. *)
Lemma decoders_within_int16 :
  forallb
    (fun b =>
       within (-32768) 32767 (Base64ToWavConverter.mulawDecode b) &&
       within (-32768) 32767 (ImprovedAudioConverter.mulawDecode b) &&
       within (-32768) 32767 (AudioStitcher.mulawDecode b) &&
       within (-32768) 32767 (TwilioAudioProcessor.mulawDecode b) &&
       within (-32768) 32767 (AudioBuffer.mulawToPcm b) &&
       match ImprovedAudioConverter.mulawDecodeAlt b with
       | Some v => within (-32768) 32767 v
       | None => false
       end)
    all_bytes = true.
Proof. vm_compute. reflexivity. Qed.

(** C6.  For every byte [b] in 0..255 the decoders
    [Base64ToWavConverter.mulawDecode] and
    [ImprovedAudioConverter.mulawDecode] (and the other copies in the
    repository, the lookup table included) return a value in
    [-32768, 32767]: the whole byte domain is accepted, the table has an
    entry for every byte, and storing the decoded sample with
    [writeInt16LE] raises no error.  The decoders are functions of the
    byte alone, so the result is determined by [b]. *)
Theorem mulawDecode_total_in_int16 (b : Z) :
  0 <= b <= 255 ->
  in_int16 (Base64ToWavConverter.mulawDecode b) /\
  in_int16 (ImprovedAudioConverter.mulawDecode b) /\
  in_int16 (AudioStitcher.mulawDecode b) /\
  in_int16 (TwilioAudioProcessor.mulawDecode b) /\
  in_int16 (AudioBuffer.mulawToPcm b) /\
  (exists v, ImprovedAudioConverter.mulawDecodeAlt b = Some v /\ in_int16 v) /\
  (exists pcm, Base64ToWavConverter.mulawToPcm [b] = JS.Ok pcm /\ length pcm = 2%nat) /\
  (forall useAltDecoder,
      exists pcm, ImprovedAudioConverter.mulawToPcm [b] useAltDecoder = JS.Ok pcm /\
                  length pcm = 2%nat).
Proof.
  intros Hb.
  pose proof (for_all_bytes _ decoders_within_int16 b Hb) as H.
  cbv beta in H.
  apply andb_true_iff in H. destruct H as [H Htable].
  apply andb_true_iff in H. destruct H as [H Hlive].
  apply andb_true_iff in H. destruct H as [H Htwilio].
  apply andb_true_iff in H. destruct H as [H Hstitch].
  apply andb_true_iff in H. destruct H as [Hconv Himproved].
  apply within_spec in Hconv, Himproved, Hstitch, Htwilio, Hlive.
  destruct (ImprovedAudioConverter.mulawDecodeAlt b) as [v|] eqn:Halt;
    [|discriminate Htable].
  apply within_spec in Htable.
  split; [exact Hconv|]. split; [exact Himproved|].
  split; [exact Hstitch|]. split; [exact Htwilio|]. split; [exact Hlive|].
  split; [exists v; split; [reflexivity | exact Htable]|].
  split.
  - apply (pcm_of_mulaw_total Base64ToWavConverter.mulawDecode [b]).
    constructor; [exact Hconv | constructor].
  - intros useAltDecoder.
    unfold ImprovedAudioConverter.mulawToPcm.
    apply pcm_of_mulaw_total.
    constructor; [|constructor].
    destruct useAltDecoder.
    + rewrite Halt. exact Htable.
    + exact Himproved.
Qed.

Lemma mulawDecode_total_in_int16_witness :
  0 <= 0x00 <= 255 /\
  in_int16 (Base64ToWavConverter.mulawDecode 0x00) /\
  in_int16 (ImprovedAudioConverter.mulawDecode 0x00).
Proof.
  assert (Hb : 0 <= 0x00 <= 255) by lia.
  split; [exact Hb|].
  destruct (mulawDecode_total_in_int16 0x00 Hb) as [H1 [H2 _]].
  split; [exact H1 | exact H2].
Defined.

(** The unclipped decoder of the live server, checked on the 256
    bytes. *)
Lemma mulawToPcm_checked :
  forallb
    (fun b =>
       within (-16004) 16004 (AudioBuffer.mulawToPcm b) &&
       (JS.ToInt16 (AudioBuffer.mulawToPcm b) =? AudioBuffer.mulawToPcm b))
    all_bytes = true.
Proof. vm_compute. reflexivity. Qed.

(** C10.  For every byte [b] in 0..255, [AudioBuffer.mulawToPcm], which
    has no clipping step, returns a value in [-16004, 16004]; the value
    fits a signed 16-bit sample, so storing it into the [Int16Array] of
    [createWavBuffer] leaves it unchanged.  Both bounds are reached (at
    the bytes 0x00 and 0x80). *)
Theorem mulawToPcm_unclipped_range (b : Z) :
  0 <= b <= 255 ->
  -16004 <= AudioBuffer.mulawToPcm b <= 16004 /\
  in_int16 (AudioBuffer.mulawToPcm b) /\
  JS.ToInt16 (AudioBuffer.mulawToPcm b) = AudioBuffer.mulawToPcm b /\
  AudioBuffer.mulawToPcm 0x00 = -16004 /\
  AudioBuffer.mulawToPcm 0x80 = 16004.
Proof.
  intros Hb.
  pose proof (for_all_bytes _ mulawToPcm_checked b Hb) as H.
  cbv beta in H.
  apply andb_true_iff in H. destruct H as [Hrange Hstore].
  apply within_spec in Hrange. apply Z.eqb_eq in Hstore.
  split; [exact Hrange|].
  split; [unfold in_int16; lia|].
  split; [exact Hstore|].
  split; reflexivity.
Qed.

Lemma mulawToPcm_unclipped_range_witness :
  0 <= 0x5A <= 255 /\ -16004 <= AudioBuffer.mulawToPcm 0x5A <= 16004.
Proof.
  assert (Hb : 0 <= 0x5A <= 255) by lia.
  split; [exact Hb|].
  exact (proj1 (mulawToPcm_unclipped_range 0x5A Hb)).
Defined.

(** C5 (the code departs from the claim).  The silence byte 0xFF decodes
    to the bias 132 in every decoder of the repository, the live
    server's [mulawToPcm] and the lookup table included: the bias that
    is added to the magnitude is never taken off again.  132 is not
    within 8 of zero. *)
Theorem silence_decodes_to_bias :
  AudioBuffer.mulawToPcm 0xFF = 132 /\
  ImprovedAudioConverter.mulawDecodeAlt 0xFF = Some 132 /\
  nth_error ImprovedAudioConverter.generateMulawTable 255 = Some 132 /\
  ImprovedAudioConverter.mulawDecode 0xFF = 132 /\
  Base64ToWavConverter.mulawDecode 0xFF = 132 /\
  AudioStitcher.mulawDecode 0xFF = 132 /\
  TwilioAudioProcessor.mulawDecode 0xFF = 132 /\
  ~ (-8 <= AudioBuffer.mulawToPcm 0xFF <= 8) /\
  ~ (forall v, ImprovedAudioConverter.mulawDecodeAlt 0xFF = Some v -> -8 <= v <= 8).
Proof.
  repeat (split; [reflexivity|]).
  split.
  - change (AudioBuffer.mulawToPcm 0xFF) with 132. lia.
  - intros H. specialize (H 132 eq_refl). lia.
Qed.

(** The two decoders of the improved converter, compared on the 256
    bytes. *)
Lemma decoders_compared :
  forallb
    (fun b =>
       match ImprovedAudioConverter.mulawDecodeAlt b with
       | Some v =>
           let d := ImprovedAudioConverter.mulawDecode b in
           Bool.eqb (v =? d) ((b =? 0x7F) || (b =? 0xFF)) &&
           Bool.eqb (0 <? v) (0 <? d) &&
           (Z.abs v <=? Z.abs d)
       | None => false
       end)
    all_bytes = true.
Proof. vm_compute. reflexivity. Qed.

(** C4 (the claim as stated fails): at the byte 0x00 the branching
    decoder returns -31876 and the lookup table -15492. *)
Lemma decoders_differ_at_0x00 :
  ImprovedAudioConverter.mulawDecode 0x00 = -31876 /\
  ImprovedAudioConverter.mulawDecodeAlt 0x00 = Some (-15492) /\
  ~ (forall b, 0 <= b <= 255 ->
       ImprovedAudioConverter.mulawDecodeAlt b
       = Some (ImprovedAudioConverter.mulawDecode b)).
Proof.
  split; [reflexivity|]. split; [reflexivity|].
  intros H. specialize (H 0x00 ltac:(lia)).
  vm_compute in H. discriminate H.
Qed.

(** C4, amended.  For every byte [b] in 0..255 the lookup table has an
    entry, and it equals the result of the branching decoder exactly
    when [b] is one of the two silence bytes 0x7F and 0xFF; on every
    other byte the two decoders differ.  Both results have the same
    sign, and the table's magnitude never exceeds that of the branching
    decoder. *)
Theorem decoders_agree_only_on_silence (b : Z) :
  0 <= b <= 255 ->
  exists v,
    ImprovedAudioConverter.mulawDecodeAlt b = Some v /\
    (v = ImprovedAudioConverter.mulawDecode b <-> b = 0x7F \/ b = 0xFF) /\
    (0 < v <-> 0 < ImprovedAudioConverter.mulawDecode b) /\
    Z.abs v <= Z.abs (ImprovedAudioConverter.mulawDecode b).
Proof.
  intros Hb.
  pose proof (for_all_bytes _ decoders_compared b Hb) as H.
  cbv beta in H.
  destruct (ImprovedAudioConverter.mulawDecodeAlt b) as [v|]; [|discriminate].
  cbv zeta in H.
  apply andb_true_iff in H. destruct H as [H Habs].
  apply andb_true_iff in H. destruct H as [Heq Hsign].
  apply Bool.eqb_prop in Heq. apply Bool.eqb_prop in Hsign.
  exists v. split; [reflexivity|].
  split; [|split].
  - rewrite <- Z.eqb_eq, Heq, orb_true_iff, !Z.eqb_eq. tauto.
  - rewrite <- !Z.ltb_lt, Hsign. tauto.
  - apply Z.leb_le. exact Habs.
Qed.

Lemma decoders_agree_only_on_silence_witness :
  0 <= 0xFF <= 255 /\
  exists v,
    ImprovedAudioConverter.mulawDecodeAlt 0xFF = Some v /\
    (v = ImprovedAudioConverter.mulawDecode 0xFF <-> 0xFF = 0x7F \/ 0xFF = 0xFF) /\
    (0 < v <-> 0 < ImprovedAudioConverter.mulawDecode 0xFF) /\
    Z.abs v <= Z.abs (ImprovedAudioConverter.mulawDecode 0xFF).
Proof.
  assert (Hb : 0 <= 0xFF <= 255) by lia.
  split; [exact Hb|].
  exact (decoders_agree_only_on_silence 0xFF Hb).
Defined.

(** ** The WAV writers *)

Lemma le_value_le_bytes_2 (v : Z) :
  0 <= v <= 65535 -> JS.le_value (JS.le_bytes 2 v) = v.
Proof.
  intros Hv. cbn [JS.le_bytes JS.le_value].
  Z.div_mod_to_equations. lia.
Qed.

Lemma le_value_le_bytes_4 (v : Z) :
  0 <= v <= 4294967295 -> JS.le_value (JS.le_bytes 4 v) = v.
Proof.
  intros Hv. cbn [JS.le_bytes JS.le_value].
  Z.div_mod_to_equations. lia.
Qed.

Lemma writeUInt32LE_in_range (value : Z) (offset : nat) (buf : JS.Buffer) :
  0 <= value <= 4294967295 ->
  JS.writeUInt32LE value offset buf =
  if (offset + 4 <=? length buf)%nat
  then JS.Ok (JS.splice (JS.le_bytes 4 value) offset buf)
  else JS.Throw JS.RangeError.
Proof.
  intros Hv. unfold JS.writeUInt32LE.
  replace ((0 <=? value) && (value <=? 4294967295)) with true; [reflexivity|].
  symmetry. apply within_spec. exact Hv.
Qed.

Lemma writeUInt16LE_in_range (value : Z) (offset : nat) (buf : JS.Buffer) :
  0 <= value <= 65535 ->
  JS.writeUInt16LE value offset buf =
  if (offset + 2 <=? length buf)%nat
  then JS.Ok (JS.splice (JS.le_bytes 2 value) offset buf)
  else JS.Throw JS.RangeError.
Proof.
  intros Hv. unfold JS.writeUInt16LE.
  replace ((0 <=? value) && (value <=? 65535)) with true; [reflexivity|].
  symmetry. apply within_spec. exact Hv.
Qed.

Ltac buffer_step :=
  cbn [JS.bind JS.splice firstn skipn app length Nat.leb Nat.add Nat.sub
       Nat.mul JS.le_bytes].

(** The header writer, on a buffer of at least 44 zero bytes: it
    succeeds when every field fits its width, and leaves [header_bytes]
    in front of the untouched rest. *)
Lemma write_wav_fields_closed
    (fileSize channelCount rate byteRate blockAlign bits dataSize : Z)
    (rest : JS.Buffer) :
  0 <= fileSize <= 4294967295 ->
  0 <= channelCount <= 65535 ->
  0 <= rate <= 4294967295 ->
  0 <= byteRate <= 4294967295 ->
  0 <= blockAlign <= 65535 ->
  0 <= bits <= 65535 ->
  0 <= dataSize <= 4294967295 ->
  write_wav_fields fileSize channelCount rate byteRate blockAlign bits dataSize
    (JS.alloc 44 ++ rest)
  = JS.Ok (header_bytes fileSize channelCount rate byteRate blockAlign bits dataSize
           ++ rest).
Proof.
  intros Hfile Hch Hrate Hbyte Hblock Hbits Hdata.
  unfold write_wav_fields, header_bytes, JS.write, JS.alloc.
  change (JS.bytes_of_string "RIFF") with [82; 73; 70; 70].
  change (JS.bytes_of_string "WAVE") with [87; 65; 86; 69].
  change (JS.bytes_of_string "fmt ") with [102; 109; 116; 32].
  change (JS.bytes_of_string "data") with [100; 97; 116; 97].
  cbn [repeat].
  repeat (buffer_step;
          first [ rewrite writeUInt32LE_in_range by (assumption || lia)
                | rewrite writeUInt16LE_in_range by (assumption || lia) ]).
  buffer_step.
  reflexivity.
Qed.

Lemma header_bytes_length
    (fileSize channelCount rate byteRate blockAlign bits dataSize : Z) :
  length (header_bytes fileSize channelCount rate byteRate blockAlign bits dataSize)
  = 44%nat.
Proof. reflexivity. Qed.

(** Reading the fields back from the bytes the writer leaves. *)
Lemma header_read_back (dataSize : Z) (rest : JS.Buffer) :
  0 <= dataSize -> 36 + dataSize <= 4294967295 ->
  telephony_wav_header
    (header_bytes (36 + dataSize) 1 8000 16000 2 16 dataSize ++ rest) dataSize.
Proof.
  intros Hlo Hhi.
  unfold telephony_wav_header, header_bytes, JS.readUInt32LE, JS.readUInt16LE.
  change (JS.bytes_of_string "RIFF") with [82; 73; 70; 70].
  change (JS.bytes_of_string "WAVE") with [87; 65; 86; 69].
  change (JS.bytes_of_string "fmt ") with [102; 109; 116; 32].
  change (JS.bytes_of_string "data") with [100; 97; 116; 97].
  buffer_step.
  repeat split; try reflexivity.
  - f_equal. apply (le_value_le_bytes_4 (36 + dataSize)). lia.
  - f_equal. apply (le_value_le_bytes_4 dataSize). lia.
Qed.

Lemma copy_after_header (header pcmData : JS.Buffer) :
  length header = 44%nat ->
  JS.copy pcmData 44 (header ++ JS.alloc (length pcmData)) = header ++ pcmData.
Proof.
  intros Hlen. unfold JS.copy, JS.splice, JS.alloc.
  rewrite length_app, repeat_length, Hlen.
  replace (44 + length pcmData - 44)%nat with (length pcmData) by lia.
  rewrite firstn_all.
  rewrite firstn_app, Hlen, Nat.sub_diag, firstn_O.
  rewrite app_nil_r, (firstn_all2 header) by lia.
  rewrite skipn_all2.
  - now rewrite app_nil_r.
  - rewrite length_app, repeat_length. lia.
Qed.

(** The one-allocation writers of the offline converters: header
    followed by the payload. *)
Lemma wav_buffer_closed (pcmData : JS.Buffer) :
  36 + Z.of_nat (length pcmData) <= 4294967295 ->
  Base64ToWavConverter.createWavBuffer telephony_format pcmData
  = JS.Ok (header_bytes (36 + Z.of_nat (length pcmData)) 1 8000 16000 2 16
             (Z.of_nat (length pcmData)) ++ pcmData) /\
  AudioStitcher.createWavBuffer pcmData 8000 1 16
  = JS.Ok (header_bytes (36 + Z.of_nat (length pcmData)) 1 8000 16000 2 16
             (Z.of_nat (length pcmData)) ++ pcmData).
Proof.
  intros Hfit.
  assert (Hclosed :
    write_wav_fields (36 + Z.of_nat (length pcmData)) 1 8000 16000 2 16
      (Z.of_nat (length pcmData)) (JS.alloc 44 ++ JS.alloc (length pcmData))
    = JS.Ok (header_bytes (36 + Z.of_nat (length pcmData)) 1 8000 16000 2 16
               (Z.of_nat (length pcmData)) ++ JS.alloc (length pcmData)))
    by (apply write_wav_fields_closed; lia).
  split.
  - unfold Base64ToWavConverter.createWavBuffer.
    change (write_wav_fields _ _ _ _ _ _ _ _)
      with (write_wav_fields (36 + Z.of_nat (length pcmData)) 1 8000 16000 2 16
              (Z.of_nat (length pcmData))
              (JS.alloc 44 ++ JS.alloc (length pcmData))).
    rewrite Hclosed. cbn [JS.bind].
    f_equal. apply copy_after_header, header_bytes_length.
  - unfold AudioStitcher.createWavBuffer.
    change (write_wav_fields _ _ _ _ _ _ _ _)
      with (write_wav_fields (36 + Z.of_nat (length pcmData)) 1 8000 16000 2 16
              (Z.of_nat (length pcmData))
              (JS.alloc 44 ++ JS.alloc (length pcmData))).
    rewrite Hclosed. cbn [JS.bind].
    f_equal. apply copy_after_header, header_bytes_length.
Qed.

(** The header-only writers of the live server and of the improved
    converter. *)
Lemma wav_header_closed (dataSize : Z) :
  0 <= dataSize -> 36 + dataSize <= 4294967295 ->
  AudioBuffer.createWavHeader dataSize
  = JS.Ok (header_bytes (36 + dataSize) 1 8000 16000 2 16 dataSize) /\
  ImprovedAudioConverter.createWavHeader telephony_format dataSize
  = JS.Ok (header_bytes (36 + dataSize) 1 8000 16000 2 16 dataSize).
Proof.
  intros Hlo Hhi.
  assert (Hclosed :
    write_wav_fields (36 + dataSize) 1 8000 16000 2 16 dataSize (JS.alloc 44 ++ [])
    = JS.Ok (header_bytes (36 + dataSize) 1 8000 16000 2 16 dataSize ++ []))
    by (apply write_wav_fields_closed; lia).
  rewrite !app_nil_r in Hclosed.
  split; rewrite <- Hclosed; reflexivity.
Qed.

(** C7.  For every PCM payload whose size fits the 32-bit header fields,
    the WAV writers produce a 44-byte header whose RIFF chunk size is
    [36 + dataSize] and whose data chunk size is [dataSize], with audio
    format 1, byte rate [8000*1*16/8] and block align [1*16/8]
    ([AudioBuffer.createWavHeader], [ImprovedAudioConverter.createWavHeader]);
    [Base64ToWavConverter.createWavBuffer] and
    [AudioStitcher.createWavBuffer] return that header followed by the
    payload, [44 + dataSize] bytes in all.  On an empty payload,
    [createWavBuffer(pcm, 8000, 1, 16)] returns exactly 44 bytes with
    chunk size 36 and data size 0. *)
Theorem wav_writer_sizes (pcmData : JS.Buffer) :
  36 + Z.of_nat (length pcmData) <= 4294967295 ->
  (exists header,
      AudioBuffer.createWavHeader (Z.of_nat (length pcmData)) = JS.Ok header /\
      ImprovedAudioConverter.createWavHeader telephony_format
        (Z.of_nat (length pcmData)) = JS.Ok header /\
      length header = 44%nat /\
      telephony_wav_header header (Z.of_nat (length pcmData))) /\
  (exists wav,
      Base64ToWavConverter.createWavBuffer telephony_format pcmData = JS.Ok wav /\
      AudioStitcher.createWavBuffer pcmData 8000 1 16 = JS.Ok wav /\
      length wav = (44 + length pcmData)%nat /\
      telephony_wav_header wav (Z.of_nat (length pcmData)) /\
      skipn 44 wav = pcmData) /\
  AudioStitcher.createWavBuffer [] 8000 1 16 = JS.Ok empty_wav /\
  length empty_wav = 44%nat /\
  JS.readUInt32LE 4 empty_wav = JS.Ok 36 /\
  JS.readUInt32LE 40 empty_wav = JS.Ok 0.
Proof.
  intros Hfit.
  assert (Hlo : 0 <= Z.of_nat (length pcmData)) by lia.
  destruct (wav_header_closed _ Hlo Hfit) as [Hlive Himproved].
  destruct (wav_buffer_closed pcmData Hfit) as [Hconv Hstitch].
  split; [|split].
  - eexists. split; [exact Hlive|]. split; [exact Himproved|].
    split; [apply header_bytes_length|].
    pose proof (header_read_back _ [] Hlo Hfit) as Hread.
    rewrite app_nil_r in Hread. exact Hread.
  - eexists. split; [exact Hconv|]. split; [exact Hstitch|].
    split; [|split].
    + rewrite length_app, header_bytes_length. reflexivity.
    + apply header_read_back; assumption.
    + rewrite skipn_app, header_bytes_length, Nat.sub_diag.
      rewrite skipn_all2 by (rewrite header_bytes_length; lia).
      reflexivity.
  - repeat split.
Qed.

Lemma wav_writer_sizes_witness :
  36 + Z.of_nat (length [132; 0; 124; 195; 124; 195]) <= 4294967295 /\
  exists wav,
    Base64ToWavConverter.createWavBuffer telephony_format
      [132; 0; 124; 195; 124; 195] = JS.Ok wav /\
    length wav = 50%nat /\
    telephony_wav_header wav 6.
Proof.
  assert (Hfit : 36 + Z.of_nat (length [132; 0; 124; 195; 124; 195]) <= 4294967295)
    by (simpl; lia).
  split; [exact Hfit|].
  destruct (wav_writer_sizes [132; 0; 124; 195; 124; 195] Hfit)
    as [_ [[wav [Hwav [_ [Hlen [Hhdr _]]]]] _]].
  exists wav. split; [exact Hwav|]. split; [exact Hlen | exact Hhdr].
Defined.

(** ** The chunk buffer and its interval callback *)

Lemma with_buffer_same (s : Server.t) :
  Server.with_buffer (Server.audioBuffer s) s = s.
Proof. destruct s; reflexivity. Qed.

(** The gate of [processAccumulatedAudio], case by case. *)
Lemma processAccumulatedAudio_cases (now : Z) (this : AudioBuffer.t) :
  AudioBuffer.minChunksBeforeProcessing this = 100 ->
  (due now this ->
   forall started,
     AudioBuffer.sessionStartTime (AudioBuffer.session this) = Some started ->
     AudioBuffer.processAccumulatedAudio now this
     = ({| AudioBuffer.audioChunks := AudioBuffer.audioChunks this;
           AudioBuffer.processingInterval := AudioBuffer.processingInterval this;
           AudioBuffer.processingIntervalTime := AudioBuffer.processingIntervalTime this;
           AudioBuffer.isRecording := AudioBuffer.isRecording this;
           AudioBuffer.lastProcessTime := now;
           AudioBuffer.chunkCount := AudioBuffer.chunkCount this;
           AudioBuffer.minChunksBeforeProcessing :=
             AudioBuffer.minChunksBeforeProcessing this;
           AudioBuffer.session := AudioBuffer.session this |},
        AudioBuffer.Flushed
          {| AudioBuffer.seg_sessionId :=
               AudioBuffer.sessionId (AudioBuffer.session this);
             AudioBuffer.seg_bytes := JS.concat (AudioBuffer.audioChunks this) |})) /\
  (~ due now this ->
   AudioBuffer.processAccumulatedAudio now this = (this, AudioBuffer.Skipped)).
Proof.
  intros Hmin. unfold due, AudioBuffer.processAccumulatedAudio.
  rewrite Hmin.
  destruct (now - AudioBuffer.lastProcessTime this <? 3000) eqn:Hrecent;
    [apply Z.ltb_lt in Hrecent | apply Z.ltb_ge in Hrecent];
    (destruct (Z.of_nat (length (AudioBuffer.audioChunks this)) <? 100) eqn:Hfew;
     [apply Z.ltb_lt in Hfew | apply Z.ltb_ge in Hfew]);
    split; try (intros; reflexivity); try (intros; lia).
  intros _ started Hstarted. rewrite Hstarted. reflexivity.
Qed.

(** C8.  While a session is accumulating (a call has started and the
    interval timer is armed), a timer tick hands a segment to the
    transcriber if and only if at least 100 chunks are pending and at
    least 3000 ms have passed since the previous flush.  The segment
    holds all pending chunks, and the flush time becomes the time of
    the tick.  Otherwise the tick changes nothing: the server state,
    the pending chunks included, is what it was, and nothing is handed
    on. *)
Theorem tick_flushes_iff_full_and_due (s : Server.t) (now : Z) :
  AudioBuffer.processingInterval (Server.audioBuffer s) <> None ->
  AudioBuffer.sessionStartTime (AudioBuffer.session (Server.audioBuffer s)) <> None ->
  AudioBuffer.minChunksBeforeProcessing (Server.audioBuffer s) = 100 ->
  (due now (Server.audioBuffer s) ->
   snd (Server.on_tick now s)
   = [Server.TranscribeAudioMulaw
        {| AudioBuffer.seg_sessionId :=
             AudioBuffer.sessionId (AudioBuffer.session (Server.audioBuffer s));
           AudioBuffer.seg_bytes :=
             JS.concat (AudioBuffer.audioChunks (Server.audioBuffer s)) |}] /\
   AudioBuffer.lastProcessTime (Server.audioBuffer (fst (Server.on_tick now s))) = now) /\
  (~ due now (Server.audioBuffer s) -> Server.on_tick now s = (s, [])) /\
  (Server.segments (snd (Server.on_tick now s)) <> [] <-> due now (Server.audioBuffer s)).
Proof.
  intros Harmed Hstarted Hmin.
  destruct (processAccumulatedAudio_cases now (Server.audioBuffer s) Hmin)
    as [Hflush Hskip].
  destruct (AudioBuffer.sessionStartTime
              (AudioBuffer.session (Server.audioBuffer s))) as [started|] eqn:Hs;
    [clear Hstarted | contradiction].
  assert (Hdue : due now (Server.audioBuffer s) ->
    snd (Server.on_tick now s)
    = [Server.TranscribeAudioMulaw
         {| AudioBuffer.seg_sessionId :=
              AudioBuffer.sessionId (AudioBuffer.session (Server.audioBuffer s));
            AudioBuffer.seg_bytes :=
              JS.concat (AudioBuffer.audioChunks (Server.audioBuffer s)) |}] /\
    AudioBuffer.lastProcessTime (Server.audioBuffer (fst (Server.on_tick now s))) = now).
  { intros Hd. unfold Server.on_tick.
    destruct (AudioBuffer.processingInterval (Server.audioBuffer s));
      [|contradiction].
    rewrite (Hflush Hd started eq_refl).
    unfold Server.launched. cbn [AudioBuffer.seg_bytes].
    destruct (JS.concat (AudioBuffer.audioChunks (Server.audioBuffer s)));
      split; reflexivity. }
  assert (Hidle : ~ due now (Server.audioBuffer s) -> Server.on_tick now s = (s, [])).
  { intros Hnd. unfold Server.on_tick.
    destruct (AudioBuffer.processingInterval (Server.audioBuffer s));
      [|reflexivity].
    rewrite (Hskip Hnd). unfold Server.launched.
    rewrite with_buffer_same. reflexivity. }
  split; [exact Hdue|]. split; [exact Hidle|].
  split.
  - intros Hseg.
    destruct (Z_le_dec 100 (Z.of_nat (length (AudioBuffer.audioChunks (Server.audioBuffer s)))))
      as [Hfull|Hfew];
      [destruct (Z_le_dec 3000 (now - AudioBuffer.lastProcessTime (Server.audioBuffer s)))
         as [Hlate|Hearly] |].
    + split; assumption.
    + exfalso. apply Hseg. rewrite Hidle; [reflexivity|]. unfold due. tauto.
    + exfalso. apply Hseg. rewrite Hidle; [reflexivity|]. unfold due. tauto.
  - intros Hd. destruct (Hdue Hd) as [Heff _]. rewrite Heff. discriminate.
Qed.

Lemma tick_flushes_iff_full_and_due_witness :
  AudioBuffer.processingInterval (Server.audioBuffer full_server) <> None /\
  AudioBuffer.sessionStartTime (AudioBuffer.session (Server.audioBuffer full_server))
  <> None /\
  AudioBuffer.minChunksBeforeProcessing (Server.audioBuffer full_server) = 100 /\
  (Server.segments (snd (Server.on_tick 1004100 full_server)) <> []
   <-> due 1004100 (Server.audioBuffer full_server)).
Proof.
  assert (Harmed :
    AudioBuffer.processingInterval (Server.audioBuffer full_server) <> None)
    by (vm_compute; discriminate).
  assert (Hstarted :
    AudioBuffer.sessionStartTime (AudioBuffer.session (Server.audioBuffer full_server))
    <> None)
    by (vm_compute; discriminate).
  assert (Hmin :
    AudioBuffer.minChunksBeforeProcessing (Server.audioBuffer full_server) = 100)
    by (vm_compute; reflexivity).
  split; [exact Harmed|]. split; [exact Hstarted|]. split; [exact Hmin|].
  exact (proj2 (proj2 (tick_flushes_iff_full_and_due full_server 1004100
                         Harmed Hstarted Hmin))).
Defined.

(** ** End of call *)

Lemma run_app (events1 events2 : list (Z * Server.event)) (s : Server.t) :
  Server.run (events1 ++ events2) s
  = (fst (Server.run events2 (fst (Server.run events1 s))),
     snd (Server.run events1 s)
     ++ snd (Server.run events2 (fst (Server.run events1 s)))).
Proof.
  revert s. induction events1 as [|[now e] rest IH]; intros s.
  - simpl. destruct (Server.run events2 s). reflexivity.
  - simpl. destruct (Server.step now e s) as [s1 effects1].
    rewrite IH.
    destruct (Server.run rest s1) as [s2 effects2]. simpl.
    now rewrite app_assoc.
Qed.

(** With fewer chunks pending than [minChunksBeforeProcessing],
    [forceProcessAudio] clears the timer and processes nothing: the
    call it makes to [processAccumulatedAudio] returns at one of the two
    guards. *)
Lemma forceProcessAudio_underfull (now : Z) (this : AudioBuffer.t) :
  Z.of_nat (length (AudioBuffer.audioChunks this))
  < AudioBuffer.minChunksBeforeProcessing this ->
  AudioBuffer.forceProcessAudio now this = (disarmed this, AudioBuffer.Skipped).
Proof.
  intros Hfew. unfold AudioBuffer.forceProcessAudio.
  cbn [AudioBuffer.audioChunks].
  destruct (0 <? length (AudioBuffer.audioChunks this))%nat; [|reflexivity].
  unfold AudioBuffer.processAccumulatedAudio.
  cbn [AudioBuffer.audioChunks AudioBuffer.lastProcessTime
       AudioBuffer.minChunksBeforeProcessing].
  destruct (now - AudioBuffer.lastProcessTime this <? 3000); [reflexivity|].
  apply Z.ltb_lt in Hfew. rewrite Hfew. reflexivity.
Qed.

Lemma stop_underfull (now : Z) (connection : nat) (s : Server.t) :
  Z.of_nat (length (AudioBuffer.audioChunks (Server.audioBuffer s)))
  < AudioBuffer.minChunksBeforeProcessing (Server.audioBuffer s) ->
  Server.step now (Server.Message connection stop_message) s
  = (Server.with_buffer (disarmed (Server.audioBuffer s)) s, []).
Proof.
  intros Hfew.
  change (Server.step now (Server.Message connection stop_message) s)
    with (let (b, o) := AudioBuffer.forceProcessAudio now (Server.audioBuffer s) in
          Server.launched Server.Resume o (Server.with_buffer b s)).
  rewrite (forceProcessAudio_underfull now _ Hfew). reflexivity.
Qed.

Lemma close_underfull (now : Z) (connection : nat) (s : Server.t) :
  Z.of_nat (length (AudioBuffer.audioChunks (Server.audioBuffer s)))
  < AudioBuffer.minChunksBeforeProcessing (Server.audioBuffer s) ->
  Server.step now (Server.Close connection) s
  = (Server.reset (Server.with_buffer (disarmed (Server.audioBuffer s)) s), []).
Proof.
  intros Hfew. unfold Server.step, Server.on_close.
  rewrite (forceProcessAudio_underfull now _ Hfew). reflexivity.
Qed.

Lemma end_underfull (stopTime closeTime : Z) (s : Server.t) :
  Z.of_nat (length (AudioBuffer.audioChunks (Server.audioBuffer s)))
  < AudioBuffer.minChunksBeforeProcessing (Server.audioBuffer s) ->
  Server.run [(stopTime, Server.Message 1 stop_message);
              (closeTime, Server.Close 1)] s
  = (Server.reset
       (Server.with_buffer (disarmed (disarmed (Server.audioBuffer s))) s), []).
Proof.
  intros Hfew. cbn [Server.run].
  rewrite (stop_underfull stopTime 1 s Hfew).
  rewrite close_underfull by exact Hfew.
  reflexivity.
Qed.

(** C2 (the code departs from the claim).  A call delivers forty frames,
    fewer than [minChunksBeforeProcessing = 100], and ends: the stop
    message arrives and the connection closes, at any two times.
    [forceProcessAudio] clears the timer but hands nothing to the
    transcriber, because it goes through the gates of
    [processAccumulatedAudio]; over the whole run not one segment is
    produced, and the reset that follows the close drops the forty
    pending chunks. *)
Theorem forty_frames_are_never_flushed (stopTime closeTime : Z) :
  length (AudioBuffer.audioChunks
            (Server.audioBuffer (fst (Server.run forty_frames Server.init))))
  = 40%nat /\
  snd (AudioBuffer.forceProcessAudio stopTime
         (Server.audioBuffer (fst (Server.run forty_frames Server.init))))
  = AudioBuffer.Skipped /\
  snd (Server.run (forty_frames_then_end stopTime closeTime) Server.init) = [] /\
  Server.segments
    (snd (Server.run (forty_frames_then_end stopTime closeTime) Server.init)) = [] /\
  AudioBuffer.audioChunks
    (Server.audioBuffer
       (fst (Server.run (forty_frames_then_end stopTime closeTime) Server.init)))
  = [].
Proof.
  assert (Hpending :
    Z.of_nat (length (AudioBuffer.audioChunks
                        (Server.audioBuffer (fst (Server.run forty_frames Server.init)))))
    < AudioBuffer.minChunksBeforeProcessing
        (Server.audioBuffer (fst (Server.run forty_frames Server.init))))
    by (vm_compute; reflexivity).
  assert (Hquiet : snd (Server.run forty_frames Server.init) = [])
    by (vm_compute; reflexivity).
  pose proof (end_underfull stopTime closeTime _ Hpending) as Hend.
  split; [vm_compute; reflexivity|].
  split; [rewrite (forceProcessAudio_underfull stopTime _ Hpending); reflexivity|].
  unfold forty_frames_then_end. rewrite run_app, Hend, Hquiet.
  repeat split.
Qed.

(** ** Empty inputs *)

(** C9 (the claim as stated fails): with no chunk added,
    [AudioStitcher.createWavFile] raises an error instead of returning
    an empty result. *)
Lemma createWavFile_without_chunks_throws :
  AudioStitcher.createWavFile AudioStitcher.new
  = JS.Throw (JS.Error "No audio chunks to process") /\
  ~ (exists wav, AudioStitcher.createWavFile AudioStitcher.new = JS.Ok wav).
Proof.
  split; [reflexivity|].
  intros [wav Hwav]. discriminate Hwav.
Qed.

(** C9, amended.  Materializing with nothing pending is refused by the
    offline tools: [AudioStitcher.createWavFile] on a stitcher without
    chunks raises "No audio chunks to process", and
    [extractAudioFromTwilioArray] on an array without media messages
    raises "No media messages found".  The live buffer's
    [forceProcessAudio] on an empty buffer returns without processing
    and without error.  Producing a WAV file from a zero-length payload
    succeeds: the writers return the 44-byte header alone, with chunk
    size 36 and data size 0, and so does [createWavFile] when the only
    chunk is empty. *)
Theorem empty_input_behaviour (this : AudioStitcher.t) (buffer : AudioBuffer.t)
    (now : Z) :
  AudioStitcher.createWavFile AudioStitcher.new
  = JS.Throw (JS.Error "No audio chunks to process") /\
  AudioStitcher.createWavFile (AudioStitcher.reset this)
  = JS.Throw (JS.Error "No audio chunks to process") /\
  TwilioAudioProcessor.extractAudioFromTwilioArray (TwilioAudioProcessor.JArray [])
  = JS.Throw (JS.Error "No media messages found") /\
  AudioBuffer.forceProcessAudio now (AudioBuffer.reset buffer)
  = (AudioBuffer.reset buffer, AudioBuffer.Skipped) /\
  AudioStitcher.createWavBuffer [] 8000 1 16 = JS.Ok empty_wav /\
  Base64ToWavConverter.createWavBuffer telephony_format [] = JS.Ok empty_wav /\
  Base64ToWavConverter.convertBase64ToWav telephony_format EmptyString
  = JS.Ok empty_wav /\
  AudioStitcher.createWavFile (AudioStitcher.addChunk EmptyString AudioStitcher.new)
  = JS.Ok empty_wav /\
  length empty_wav = 44%nat /\
  JS.readUInt32LE 4 empty_wav = JS.Ok 36 /\
  JS.readUInt32LE 40 empty_wav = JS.Ok 0 /\
  telephony_wav_header empty_wav 0.
Proof.
  do 11 (split; [reflexivity|]).
  exact (header_read_back 0 [] ltac:(lia) ltac:(lia)).
Qed.

(** ** Order of the flushed bytes *)

Lemma insert_perm (msg : Data) (sorted : list Data) :
  Permutation (TwilioAudioProcessor.insert msg sorted) (msg :: sorted).
Proof.
  induction sorted as [|x rest IH]; simpl.
  - apply Permutation_refl.
  - destruct (data_sequenceNumber msg <=? data_sequenceNumber x).
    + apply Permutation_refl.
    + apply perm_trans with (x :: msg :: rest).
      * apply perm_skip, IH.
      * apply perm_swap.
Qed.

Lemma sort_perm (messages : list Data) :
  Permutation (TwilioAudioProcessor.sort messages) messages.
Proof.
  induction messages as [|msg rest IH]; simpl.
  - apply perm_nil.
  - apply perm_trans with (msg :: TwilioAudioProcessor.sort rest).
    + apply insert_perm.
    + apply perm_skip, IH.
Qed.

Lemma insert_sorted (msg : Data) (sorted : list Data) :
  Sorted seq_le sorted -> Sorted seq_le (TwilioAudioProcessor.insert msg sorted).
Proof.
  induction sorted as [|x rest IH]; intros Hsorted; simpl.
  - repeat constructor.
  - destruct (data_sequenceNumber msg <=? data_sequenceNumber x) eqn:Hle.
    + constructor; [exact Hsorted|].
      constructor. apply Z.leb_le, Hle.
    + apply Z.leb_gt in Hle.
      inversion Hsorted as [|? ? Hrest Hhd]; subst.
      constructor; [apply IH, Hrest|].
      destruct rest as [|y rest']; simpl.
      * constructor. unfold seq_le. lia.
      * destruct (data_sequenceNumber msg <=? data_sequenceNumber y).
        -- constructor. unfold seq_le. lia.
        -- inversion Hhd; subst. constructor. assumption.
Qed.

Lemma sort_sorted (messages : list Data) :
  StronglySorted seq_le (TwilioAudioProcessor.sort messages).
Proof.
  apply Sorted_StronglySorted.
  - intros a b c Hab Hbc. unfold seq_le in *. lia.
  - induction messages as [|msg rest IH]; simpl.
    + constructor.
    + apply insert_sorted, IH.
Qed.

(** The sort is stable: messages with equal sequence numbers keep their
    order of arrival. *)
Lemma insert_stable (k : Z) (msg : Data) (sorted : list Data) :
  with_sequenceNumber k (TwilioAudioProcessor.insert msg sorted)
  = with_sequenceNumber k (msg :: sorted).
Proof.
  unfold with_sequenceNumber.
  induction sorted as [|x rest IH]; simpl.
  - reflexivity.
  - destruct (data_sequenceNumber msg <=? data_sequenceNumber x) eqn:Hle.
    + reflexivity.
    + apply Z.leb_gt in Hle. simpl. rewrite IH. simpl.
      destruct (data_sequenceNumber x =? k) eqn:Hx;
        destruct (data_sequenceNumber msg =? k) eqn:Hm; try reflexivity.
      apply Z.eqb_eq in Hx, Hm. lia.
Qed.

Lemma sort_stable (k : Z) (messages : list Data) :
  with_sequenceNumber k (TwilioAudioProcessor.sort messages)
  = with_sequenceNumber k messages.
Proof.
  induction messages as [|msg rest IH]; simpl.
  - reflexivity.
  - rewrite insert_stable. unfold with_sequenceNumber in *. simpl.
    now rewrite IH.
Qed.

(** C3 (the claim as stated fails): the live buffer keeps no sequence
    numbers.  For the call whose frames are numbered 3, 1, 2, 4, ..., 100
    with payloads C, A, B, D, ..., D, the one segment that is flushed
    begins C, A, B, not A, B, C. *)
Lemma live_flush_keeps_arrival_order :
  exists segment,
    Server.segments (snd (Server.run out_of_order_call Server.init)) = [segment] /\
    AudioBuffer.seg_bytes segment = [67; 65; 66] ++ repeat 68 97 /\
    spec_flush_bytes (media_of out_of_order_call) = [65; 66; 67] ++ repeat 68 97 /\
    AudioBuffer.seg_bytes segment <> spec_flush_bytes (media_of out_of_order_call).
Proof.
  eexists. split; [vm_compute; reflexivity|].
  split; [vm_compute; reflexivity|].
  split; [vm_compute; reflexivity|].
  vm_compute. discriminate.
Qed.

(** C3, amended.  The live buffer appends each chunk as it arrives, and
    when [processAccumulatedAudio] flushes, the segment is the pending
    chunks concatenated in arrival order; the pending list is cleared
    when the call resumes.  Ordering by sequence number is what the
    offline [extractAudioFromTwilioArray] does: for an array with at
    least one media message it returns the payload bytes of the media
    messages concatenated in ascending order of [sequenceNumber], equal
    numbers in arrival order; frames numbered 3, 1, 2 with payloads
    C, A, B yield A, B, C. *)
Theorem flush_order (items : list Data) (this : AudioBuffer.t) (now : Z)
    (base64Audio : string) (k : Z) :
  AudioBuffer.audioChunks (AudioBuffer.addAudioChunk base64Audio this)
  = AudioBuffer.audioChunks this ++ [JS.from_base64 base64Audio] /\
  match AudioBuffer.processAccumulatedAudio now this with
  | (this', AudioBuffer.Flushed segment) =>
      AudioBuffer.seg_bytes segment = JS.concat (AudioBuffer.audioChunks this) /\
      AudioBuffer.audioChunks (AudioBuffer.processAccumulatedAudio_resume this') = []
  | (this', _) => this' = this
  end /\
  TwilioAudioProcessor.extractAudioFromTwilioArray (TwilioAudioProcessor.JArray items)
  = (if (length (filter is_media items) =? 0)%nat
     then JS.Throw (JS.Error "No media messages found")
     else JS.Ok (spec_flush_bytes (filter is_media items))) /\
  Permutation (TwilioAudioProcessor.sort (filter is_media items))
    (filter is_media items) /\
  StronglySorted seq_le (TwilioAudioProcessor.sort (filter is_media items)) /\
  with_sequenceNumber k (TwilioAudioProcessor.sort (filter is_media items))
  = with_sequenceNumber k (filter is_media items) /\
  TwilioAudioProcessor.extractAudioFromTwilioArray
    (TwilioAudioProcessor.JArray
       [media_message 3 "Qw=="; media_message 1 "QQ=="; media_message 2 "Qg=="])
  = JS.Ok [65; 66; 67].
Proof.
  split; [reflexivity|].
  split.
  - unfold AudioBuffer.processAccumulatedAudio.
    destruct (now - AudioBuffer.lastProcessTime this <? 3000); [reflexivity|].
    destruct (Z.of_nat (length (AudioBuffer.audioChunks this))
              <? AudioBuffer.minChunksBeforeProcessing this); [reflexivity|].
    destruct (AudioBuffer.sessionStartTime (AudioBuffer.session this));
      [split; reflexivity | reflexivity].
  - split; [reflexivity|].
    split; [apply sort_perm|].
    split; [apply sort_sorted|].
    split; [apply sort_stable | reflexivity].
Qed.

(** ** One buffer for every connection *)

(** A media message appends its decoded payload to the shared buffer,
    whichever connection delivers it. *)
Lemma media_message_appends (now : Z) (connection : nat) (data : Data)
    (s : Server.t) :
  is_media data = true ->
  Server.step now (Server.Message connection data) s
  = (Server.with_buffer
       (AudioBuffer.addAudioChunk (payload_of data) (Server.audioBuffer s)) s, []).
Proof.
  intros Hmedia. unfold Server.step, Server.on_message.
  rewrite Hmedia.
  unfold is_media in Hmedia. apply andb_true_iff in Hmedia.
  destruct Hmedia as [Hevent _]. apply String.eqb_eq in Hevent.
  rewrite Hevent. reflexivity.
Qed.

(** Over a run of media messages from any connections the pending list
    grows by all their payloads, in arrival order. *)
Lemma media_run_appends (events : list (Z * Server.event)) :
  Forall (fun timed => exists connection data,
              snd timed = Server.Message connection data /\ is_media data = true)
         events ->
  forall s,
    AudioBuffer.audioChunks (Server.audioBuffer (fst (Server.run events s)))
    = AudioBuffer.audioChunks (Server.audioBuffer s)
      ++ map (fun msg => JS.from_base64 (payload_of msg)) (media_of events).
Proof.
  induction 1 as [|[now e] rest [connection [data [He Hmedia]]] _ IH]; intros s.
  - simpl. now rewrite app_nil_r.
  - simpl in He. subst e. cbn [Server.run].
    rewrite (media_message_appends now connection data s Hmedia).
    specialize (IH (Server.with_buffer
                      (AudioBuffer.addAudioChunk (payload_of data)
                         (Server.audioBuffer s)) s)).
    destruct (Server.run rest _) as [s2 effects2].
    cbn [fst] in *. rewrite IH.
    unfold media_of. cbn [flat_map snd]. rewrite Hmedia.
    cbn [app map Server.with_buffer Server.audioBuffer
         AudioBuffer.addAudioChunk AudioBuffer.audioChunks].
    now rewrite <- app_assoc.
Qed.

(** A tick that is due while no call has started (after a reset, say)
    flushes nothing: the promise of [processAccumulatedAudio] is
    rejected with a TypeError. *)
Lemma due_tick_without_session_rejects (now : Z) (this : AudioBuffer.t) :
  AudioBuffer.minChunksBeforeProcessing this = 100 ->
  due now this ->
  AudioBuffer.sessionStartTime (AudioBuffer.session this) = None ->
  AudioBuffer.processAccumulatedAudio now this
  = (this, AudioBuffer.Rejected JS.TypeError).
Proof.
  intros Hmin [Hfull Hlate] Hnone. unfold AudioBuffer.processAccumulatedAudio.
  rewrite Hmin, Hnone.
  apply Z.ltb_ge in Hfull, Hlate. rewrite Hfull, Hlate. reflexivity.
Qed.

(** C1 (the code departs from the claim).  The handlers of every
    connection feed the one module-level buffer, and a message is
    treated the same whichever connection delivers it.  When the calls
    CA-B (connection 1, frames 0xFF) and CA-A (connection 2, frames
    0x00) run at once, the timer tick flushes a single segment under the
    session id CA-A that holds the frames of both calls alternately: it
    contains the byte 0xFF, which no frame of CA-A carries. *)
Theorem shared_buffer_mixes_calls :
  (forall now connection1 connection2 data s,
      Server.step now (Server.Message connection1 data) s
      = Server.step now (Server.Message connection2 data) s) /\
  exists segment,
    Server.segments (snd (Server.run two_calls Server.init)) = [segment] /\
    AudioBuffer.seg_sessionId segment = Some "CA-A" /\
    JS.concat (Server.frames_of 2 two_calls) = repeat 0 50 /\
    JS.concat (Server.frames_of 1 two_calls) = repeat 255 50 /\
    AudioBuffer.seg_bytes segment
    = List.concat (repeat [255; 0] 50) /\
    AudioBuffer.seg_bytes segment <> JS.concat (Server.frames_of 2 two_calls) /\
    In 255 (AudioBuffer.seg_bytes segment) /\
    ~ In 255 (JS.concat (Server.frames_of 2 two_calls)).
Proof.
  split; [reflexivity|].
  assert (Hframes : JS.concat (Server.frames_of 2 two_calls) = repeat 0 50)
    by (vm_compute; reflexivity).
  eexists. split; [vm_compute; reflexivity|].
  split; [reflexivity|].
  split; [exact Hframes|].
  split; [vm_compute; reflexivity|].
  split; [vm_compute; reflexivity|].
  rewrite Hframes.
  split; [vm_compute; discriminate|].
  split; [left; reflexivity|].
  intros Hin. apply repeat_spec in Hin. discriminate Hin.
Qed.

(* ================================================================== *)
(** * Further properties *)
(* ================================================================== *)

(** ** Shape of the decoders *)

Lemma for_all_byte_pairs (P : Z -> Z -> bool) :
  forallb (fun a => forallb (P a) all_bytes) all_bytes = true ->
  forall a b, 0 <= a <= 255 -> 0 <= b <= 255 -> P a b = true.
Proof.
  intros Hall a b Ha Hb.
  pose proof (for_all_bytes _ Hall a Ha) as Hrow. cbv beta in Hrow.
  exact (for_all_bytes _ Hrow b Hb).
Qed.

Lemma decoders_symmetry_checked :
  forallb
    (fun b =>
       (Base64ToWavConverter.mulawDecode (Z.lxor b 0x80)
        =? - Base64ToWavConverter.mulawDecode b) &&
       (AudioStitcher.mulawDecode (Z.lxor b 0x80)
        =? - AudioStitcher.mulawDecode b) &&
       (ImprovedAudioConverter.mulawDecode (Z.lxor b 0x80)
        =? - ImprovedAudioConverter.mulawDecode b) &&
       (ImprovedAudioConverter.table_entry (Z.lxor b 0x80)
        =? - ImprovedAudioConverter.table_entry b) &&
       (TwilioAudioProcessor.mulawDecode (Z.lxor b 0x80)
        =? - TwilioAudioProcessor.mulawDecode b) &&
       (AudioBuffer.mulawToPcm (Z.lxor b 0x80) =? - AudioBuffer.mulawToPcm b))
    all_bytes = true.
Proof. vm_compute. reflexivity. Qed.

(** X1.  Every decoder is odd in the sign bit: flipping bit 7 of a byte
    negates the decoded sample, so positive and negative half-waves
    decode to mirror images. *)
Theorem decoders_negate_on_sign_bit (b : Z) :
  0 <= b <= 255 ->
  Base64ToWavConverter.mulawDecode (Z.lxor b 0x80)
  = - Base64ToWavConverter.mulawDecode b /\
  AudioStitcher.mulawDecode (Z.lxor b 0x80) = - AudioStitcher.mulawDecode b /\
  ImprovedAudioConverter.mulawDecode (Z.lxor b 0x80)
  = - ImprovedAudioConverter.mulawDecode b /\
  ImprovedAudioConverter.table_entry (Z.lxor b 0x80)
  = - ImprovedAudioConverter.table_entry b /\
  TwilioAudioProcessor.mulawDecode (Z.lxor b 0x80)
  = - TwilioAudioProcessor.mulawDecode b /\
  AudioBuffer.mulawToPcm (Z.lxor b 0x80) = - AudioBuffer.mulawToPcm b.
Proof.
  intros Hb.
  pose proof (for_all_bytes _ decoders_symmetry_checked b Hb) as H.
  cbv beta in H.
  apply andb_true_iff in H. destruct H as [H Hlive].
  apply andb_true_iff in H. destruct H as [H Htwilio].
  apply andb_true_iff in H. destruct H as [H Htable].
  apply andb_true_iff in H. destruct H as [H Himproved].
  apply andb_true_iff in H. destruct H as [Hconv Hstitch].
  apply Z.eqb_eq in Hconv, Hstitch, Himproved, Htable, Htwilio, Hlive.
  repeat split; assumption.
Qed.

Lemma decoders_negate_on_sign_bit_witness :
  0 <= 0x2C <= 255 /\
  AudioBuffer.mulawToPcm (Z.lxor 0x2C 0x80) = - AudioBuffer.mulawToPcm 0x2C.
Proof.
  assert (Hb : 0 <= 0x2C <= 255) by lia.
  split; [exact Hb|].
  destruct (decoders_negate_on_sign_bit 0x2C Hb) as [_ [_ [_ [_ [_ H]]]]].
  exact H.
Defined.

Lemma nth_all_bytes (f : Z -> Z) (b : Z) :
  0 <= b <= 255 -> nth (Z.to_nat b) (map f all_bytes) 0 = f b.
Proof.
  intros Hb. unfold all_bytes. rewrite map_map.
  rewrite (nth_indep _ 0 (f (Z.of_nat 0)))
    by (rewrite length_map, length_seq; lia).
  rewrite (map_nth (fun i => f (Z.of_nat i)) (seq 0 256) 0%nat).
  rewrite seq_nth by lia. f_equal. lia.
Qed.

Lemma branching_decoder_order_checked :
  (fun improved twilio =>
     forallb (fun a => forallb (ordered_pair improved twilio a) all_bytes) all_bytes)
    (map ImprovedAudioConverter.mulawDecode all_bytes)
    (map TwilioAudioProcessor.mulawDecode all_bytes)
  = true.
Proof. vm_compute. reflexivity. Qed.

Lemma ordered_pair_spec (improved twilio : list Z) (a b : Z) :
  a < b ->
  ordered_pair improved twilio a b = true ->
  (b <= 127 -> nth (Z.to_nat a) improved 0 < nth (Z.to_nat b) improved 0) /\
  (128 <= a -> nth (Z.to_nat b) improved 0 < nth (Z.to_nat a) improved 0) /\
  nth (Z.to_nat a) improved 0 <> nth (Z.to_nat b) improved 0 /\
  nth (Z.to_nat a) twilio 0 <> nth (Z.to_nat b) twilio 0.
Proof.
  intros Hab H. unfold ordered_pair in H.
  apply Z.ltb_lt in Hab. rewrite Hab in H. cbn [implb] in H.
  apply andb_true_iff in H. destruct H as [H Htwilio].
  apply andb_true_iff in H. destruct H as [H Hneq].
  apply andb_true_iff in H. destruct H as [Hlow Hhigh].
  apply negb_true_iff, Z.eqb_neq in Hneq.
  apply negb_true_iff, Z.eqb_neq in Htwilio.
  split; [|split; [|split; assumption]].
  - intros Hlo. apply Z.leb_le in Hlo. rewrite Hlo in Hlow.
    cbn [implb] in Hlow. apply Z.ltb_lt in Hlow. exact Hlow.
  - intros Hhi. apply Z.leb_le in Hhi. rewrite Hhi in Hhigh.
    cbn [implb] in Hhigh. apply Z.ltb_lt in Hhigh. exact Hhigh.
Qed.

(** X2.  The branching decoder (improved converter and Twilio array
    converter) is strictly monotone on each half of the byte range:
    increasing over 0x00..0x7F, decreasing over 0x80..0xFF.  Hence two
    different bytes never decode to the same sample. *)
Theorem branching_decoder_strictly_monotone (a b : Z) :
  0 <= a -> a < b -> b <= 255 ->
  (b <= 127 ->
   ImprovedAudioConverter.mulawDecode a < ImprovedAudioConverter.mulawDecode b) /\
  (128 <= a ->
   ImprovedAudioConverter.mulawDecode b < ImprovedAudioConverter.mulawDecode a) /\
  ImprovedAudioConverter.mulawDecode a <> ImprovedAudioConverter.mulawDecode b /\
  TwilioAudioProcessor.mulawDecode a <> TwilioAudioProcessor.mulawDecode b.
Proof.
  intros Ha Hab Hb.
  pose proof branching_decoder_order_checked as Hall. cbv beta in Hall.
  pose proof (for_all_byte_pairs
                (ordered_pair (map ImprovedAudioConverter.mulawDecode all_bytes)
                   (map TwilioAudioProcessor.mulawDecode all_bytes))
                Hall a b ltac:(lia) ltac:(lia)) as H.
  pose proof (ordered_pair_spec _ _ a b Hab H) as Hspec.
  rewrite !nth_all_bytes in Hspec by lia.
  exact Hspec.
Qed.

Lemma branching_decoder_strictly_monotone_witness :
  0 <= 0x90 /\ 0x90 < 0xA0 /\ 0xA0 <= 255 /\
  ImprovedAudioConverter.mulawDecode 0xA0 < ImprovedAudioConverter.mulawDecode 0x90.
Proof.
  assert (Ha : 0 <= 0x90) by lia.
  assert (Hab : 0x90 < 0xA0) by lia.
  assert (Hb : 0xA0 <= 255) by lia.
  split; [exact Ha|]. split; [exact Hab|]. split; [exact Hb|].
  destruct (branching_decoder_strictly_monotone 0x90 0xA0 Ha Hab Hb)
    as [_ [Hhigh _]].
  apply Hhigh. lia.
Defined.

Lemma decoder_ranges_checked :
  forallb
    (fun b =>
       within 132 31876 (Z.abs (ImprovedAudioConverter.mulawDecode b)) &&
       within 132 31876 (Z.abs (TwilioAudioProcessor.mulawDecode b)) &&
       within 132 15492 (Z.abs (Base64ToWavConverter.mulawDecode b)) &&
       within 132 15492 (Z.abs (AudioStitcher.mulawDecode b)) &&
       within 132 15492 (Z.abs (ImprovedAudioConverter.table_entry b)) &&
       within 132 16004 (Z.abs (AudioBuffer.mulawToPcm b)))
    all_bytes = true.
Proof. vm_compute. reflexivity. Qed.

(** X3.  No byte decodes to a sample of magnitude below the bias 132,
    and none above 31876 (branching decoders), 15492 (shift-only
    decoders and the table) or 16004 (live server): the decoders never
    produce a zero sample, and their clip at 32635 (or at the 16-bit
    range) never changes a value. *)
Theorem decoder_magnitudes (b : Z) :
  0 <= b <= 255 ->
  132 <= Z.abs (ImprovedAudioConverter.mulawDecode b) <= 31876 /\
  132 <= Z.abs (TwilioAudioProcessor.mulawDecode b) <= 31876 /\
  132 <= Z.abs (Base64ToWavConverter.mulawDecode b) <= 15492 /\
  132 <= Z.abs (AudioStitcher.mulawDecode b) <= 15492 /\
  132 <= Z.abs (ImprovedAudioConverter.table_entry b) <= 15492 /\
  132 <= Z.abs (AudioBuffer.mulawToPcm b) <= 16004.
Proof.
  intros Hb.
  pose proof (for_all_bytes _ decoder_ranges_checked b Hb) as H.
  cbv beta in H.
  apply andb_true_iff in H. destruct H as [H Hlive].
  apply andb_true_iff in H. destruct H as [H Htable].
  apply andb_true_iff in H. destruct H as [H Hstitch].
  apply andb_true_iff in H. destruct H as [H Hconv].
  apply andb_true_iff in H. destruct H as [Himproved Htwilio].
  apply within_spec in Himproved, Htwilio, Hconv, Hstitch, Htable, Hlive.
  repeat split; lia.
Qed.

Lemma decoder_magnitudes_witness :
  0 <= 0xFF <= 255 /\ 132 <= Z.abs (AudioBuffer.mulawToPcm 0xFF) <= 16004.
Proof.
  assert (Hb : 0 <= 0xFF <= 255) by lia.
  split; [exact Hb|].
  destruct (decoder_magnitudes 0xFF Hb) as [_ [_ [_ [_ [_ H]]]]].
  exact H.
Defined.

(** ** The conversion loops *)

Lemma splice_after (done bytes old rest : list Z) :
  length old = length bytes ->
  JS.splice bytes (length done) (done ++ old ++ rest) = done ++ bytes ++ rest.
Proof.
  intros Hlen. unfold JS.splice.
  rewrite firstn_app, firstn_all, Nat.sub_diag, firstn_O, app_nil_r.
  rewrite skipn_app.
  rewrite skipn_all2 by lia.
  replace (length done + length bytes - length done)%nat with (length old) by lia.
  rewrite skipn_app, skipn_all, Nat.sub_diag, skipn_O.
  reflexivity.
Qed.

Lemma int16_round_trip (v : Z) :
  in_int16 v ->
  (if JS.le_value (JS.le_bytes 2 (v mod 65536)) <? 32768
   then JS.le_value (JS.le_bytes 2 (v mod 65536))
   else JS.le_value (JS.le_bytes 2 (v mod 65536)) - 65536) = v.
Proof.
  intros Hv. unfold in_int16 in Hv.
  rewrite le_value_le_bytes_2 by (pose proof (Z.mod_pos_bound v 65536); lia).
  destruct (v mod 65536 <? 32768) eqn:Hlow;
    [apply Z.ltb_lt in Hlow | apply Z.ltb_ge in Hlow];
    Z.div_mod_to_equations; lia.
Qed.

Section ConversionLoopShape.

Variable decode : Z -> Z.

(** The loop writes, in place, exactly the little-endian samples of the
    input bytes. *)
Lemma pcm_loop_closed (rest : JS.Buffer) :
  forall (i : nat) (done : JS.Buffer),
    length done = (i * 2)%nat ->
    Forall (fun b => in_int16 (decode b)) rest ->
    pcm_loop decode i rest (done ++ JS.alloc (length rest * 2))
    = JS.Ok (done ++ samples_of decode rest).
Proof.
  induction rest as [|b rest IH]; intros i done Hdone Hall.
  - reflexivity.
  - inversion Hall as [|? ? Hv Hrest]; subst.
    cbn [pcm_loop length Nat.mul Nat.add JS.alloc repeat samples_of flat_map].
    unfold JS.writeInt16LE.
    replace ((-32768 <=? decode b) && (decode b <=? 32767)) with true
      by (symmetry; apply within_spec; exact Hv).
    match goal with
    | |- context [Nat.leb ?x ?y] =>
        replace (Nat.leb x y) with true
          by (symmetry; apply Nat.leb_le; rewrite length_app; simpl;
              rewrite repeat_length; lia)
    end.
    cbn [JS.bind]. rewrite <- Hdone.
    pose proof (splice_after done (JS.le_bytes 2 (decode b mod 65536)) [0; 0]
                  (repeat 0 (length rest * 2)) eq_refl) as Hsplice.
    cbn [app] in Hsplice. rewrite Hsplice.
    rewrite app_assoc.
    change (repeat 0 (length rest * 2)) with (JS.alloc (length rest * 2)).
    rewrite (IH (S i) (done ++ JS.le_bytes 2 (decode b mod 65536))).
    + now rewrite <- app_assoc.
    + rewrite length_app, le_bytes_length. lia.
    + exact Hrest.
Qed.

Lemma pcm_of_mulaw_closed (mulawBuffer : JS.Buffer) :
  Forall (fun b => in_int16 (decode b)) mulawBuffer ->
  pcm_of_mulaw decode mulawBuffer = JS.Ok (samples_of decode mulawBuffer).
Proof.
  intros Hall. unfold pcm_of_mulaw.
  exact (pcm_loop_closed mulawBuffer 0 [] eq_refl Hall).
Qed.

Lemma samples_of_length (mulawBuffer : JS.Buffer) :
  length (samples_of decode mulawBuffer) = (2 * length mulawBuffer)%nat.
Proof.
  induction mulawBuffer as [|b rest IH].
  - reflexivity.
  - cbn [samples_of flat_map length].
    rewrite length_app, le_bytes_length.
    fold (samples_of decode rest). rewrite IH. lia.
Qed.

(** Reading the [i]-th sample back gives the decoded value of the
    [i]-th byte, wherever the samples sit in a buffer. *)
Lemma samples_of_read (mulawBuffer : JS.Buffer) :
  forall (i : nat) (before after : JS.Buffer),
    Forall (fun b => in_int16 (decode b)) mulawBuffer ->
    (i < length mulawBuffer)%nat ->
    JS.readInt16LE (length before + 2 * i)
      (before ++ samples_of decode mulawBuffer ++ after)
    = JS.Ok (decode (nth i mulawBuffer 0)).
Proof.
  induction mulawBuffer as [|b rest IH]; intros i before after Hall Hi.
  - simpl in Hi. lia.
  - inversion Hall as [|? ? Hv Hrest]; subst.
    destruct i as [|i].
    + unfold JS.readInt16LE.
      match goal with
      | |- context [Nat.leb ?x ?y] =>
          replace (Nat.leb x y) with true
            by (symmetry; apply Nat.leb_le; rewrite !length_app; simpl; lia)
      end.
      rewrite Nat.mul_0_r, Nat.add_0_r.
      rewrite skipn_app, skipn_all, Nat.sub_diag, skipn_O.
      cbn [samples_of flat_map JS.le_bytes app firstn nth].
      f_equal. apply int16_round_trip, Hv.
    + cbn [samples_of flat_map nth].
      rewrite <- app_assoc.
      rewrite (app_assoc before).
      replace (length before + 2 * S i)%nat
        with (length (before ++ JS.le_bytes 2 (decode b mod 65536)) + 2 * i)%nat
        by (rewrite length_app, le_bytes_length; lia).
      apply IH; [exact Hrest | simpl in Hi; lia].
Qed.

(** Two decoders that agree on the bytes of a buffer give the same
    conversion. *)
Lemma pcm_loop_ext (other : Z -> Z) (rest : JS.Buffer) :
  forall (i : nat) (pcmBuffer : JS.Buffer),
    Forall (fun b => decode b = other b) rest ->
    pcm_loop decode i rest pcmBuffer = pcm_loop other i rest pcmBuffer.
Proof.
  induction rest as [|b rest IH]; intros i pcmBuffer Hall.
  - reflexivity.
  - inversion Hall as [|? ? Hb Hrest]; subst.
    cbn [pcm_loop]. rewrite Hb.
    destruct (JS.writeInt16LE (other b) (i * 2) pcmBuffer); cbn [JS.bind].
    + apply IH, Hrest.
    + reflexivity.
Qed.

End ConversionLoopShape.

(** The copies of a decoder in the offline tools agree on every byte,
    and every decoder maps bytes to 16-bit values. *)
Lemma decoder_copies_checked :
  forallb
    (fun b =>
       (AudioStitcher.mulawDecode b =? Base64ToWavConverter.mulawDecode b) &&
       (TwilioAudioProcessor.mulawDecode b =? ImprovedAudioConverter.mulawDecode b))
    all_bytes = true.
Proof. vm_compute. reflexivity. Qed.

Lemma decoder_copies_on_bytes (mulawBuffer : JS.Buffer) :
  Forall is_byte mulawBuffer ->
  Forall (fun b => AudioStitcher.mulawDecode b = Base64ToWavConverter.mulawDecode b)
    mulawBuffer /\
  Forall (fun b => TwilioAudioProcessor.mulawDecode b
                   = ImprovedAudioConverter.mulawDecode b) mulawBuffer.
Proof.
  intros Hall.
  split; induction Hall as [|b rest Hb _ IH]; constructor; try exact IH;
    pose proof (for_all_bytes _ decoder_copies_checked b Hb) as H;
    cbv beta in H; apply andb_true_iff in H; destruct H as [H1 H2];
    apply Z.eqb_eq in H1, H2; assumption.
Qed.

Lemma decoders_in_int16_on_bytes (b : Z) :
  is_byte b ->
  in_int16 (Base64ToWavConverter.mulawDecode b) /\
  in_int16 (ImprovedAudioConverter.mulawDecode b) /\
  in_int16 (AudioBuffer.mulawToPcm b).
Proof.
  intros Hb.
  pose proof (for_all_bytes _ decoders_within_int16 b Hb) as H.
  cbv beta in H.
  apply andb_true_iff in H. destruct H as [H _].
  apply andb_true_iff in H. destruct H as [H Hlive].
  apply andb_true_iff in H. destruct H as [H _].
  apply andb_true_iff in H. destruct H as [H _].
  apply andb_true_iff in H. destruct H as [Hconv Himproved].
  apply within_spec in Hconv, Himproved, Hlive.
  split; [exact Hconv|]. split; [exact Himproved | exact Hlive].
Qed.

Lemma shift_decoder_on_bytes (mulawBuffer : JS.Buffer) :
  Forall is_byte mulawBuffer ->
  Forall (fun b => in_int16 (Base64ToWavConverter.mulawDecode b)) mulawBuffer.
Proof.
  intros Hall. induction Hall as [|b rest Hb _ IH]; constructor; [|exact IH].
  destruct (decoders_in_int16_on_bytes b Hb) as [H _]. exact H.
Qed.

Lemma branching_decoder_on_bytes (mulawBuffer : JS.Buffer) :
  Forall is_byte mulawBuffer ->
  Forall (fun b => in_int16 (ImprovedAudioConverter.mulawDecode b)) mulawBuffer.
Proof.
  intros Hall. induction Hall as [|b rest Hb _ IH]; constructor; [|exact IH].
  destruct (decoders_in_int16_on_bytes b Hb) as [_ [H _]]. exact H.
Qed.

Lemma live_decoder_on_bytes (mulawBuffer : JS.Buffer) :
  Forall is_byte mulawBuffer ->
  Forall (fun b => in_int16 (AudioBuffer.mulawToPcm b)) mulawBuffer.
Proof.
  intros Hall. induction Hall as [|b rest Hb _ IH]; constructor; [|exact IH].
  destruct (decoders_in_int16_on_bytes b Hb) as [_ [_ H]]. exact H.
Qed.

Lemma pcm_of_mulaw_ext (decode other : Z -> Z) (mulawBuffer : JS.Buffer) :
  Forall (fun b => decode b = other b) mulawBuffer ->
  pcm_of_mulaw decode mulawBuffer = pcm_of_mulaw other mulawBuffer.
Proof.
  intros Hall. unfold pcm_of_mulaw. apply pcm_loop_ext, Hall.
Qed.

(** X4.  On every buffer of bytes the conversion loops succeed and
    return two bytes per input byte; reading the [i]-th 16-bit sample
    back gives the decoded value of the [i]-th byte.  The base64-to-wav
    converter and the stitcher return the same buffer, and so do the
    improved converter (standard decoder) and the Twilio array
    converter. *)
Theorem conversion_loops_store_every_sample (mulawBuffer : JS.Buffer) :
  Forall is_byte mulawBuffer ->
  (exists pcm,
      Base64ToWavConverter.mulawToPcm mulawBuffer = JS.Ok pcm /\
      AudioStitcher.mulawToPcm mulawBuffer = JS.Ok pcm /\
      length pcm = (2 * length mulawBuffer)%nat /\
      holds_samples Base64ToWavConverter.mulawDecode mulawBuffer 0 pcm) /\
  (exists pcm,
      ImprovedAudioConverter.mulawToPcm mulawBuffer false = JS.Ok pcm /\
      TwilioAudioProcessor.mulawToPcm mulawBuffer = JS.Ok pcm /\
      length pcm = (2 * length mulawBuffer)%nat /\
      holds_samples ImprovedAudioConverter.mulawDecode mulawBuffer 0 pcm).
Proof.
  intros Hbytes.
  pose proof (shift_decoder_on_bytes mulawBuffer Hbytes) as Hconv.
  pose proof (branching_decoder_on_bytes mulawBuffer Hbytes) as Himp.
  destruct (decoder_copies_on_bytes mulawBuffer Hbytes) as [Hstitch Htwilio].
  split.
  - exists (samples_of Base64ToWavConverter.mulawDecode mulawBuffer).
    split; [exact (pcm_of_mulaw_closed Base64ToWavConverter.mulawDecode
                     mulawBuffer Hconv)|].
    split.
    { unfold AudioStitcher.mulawToPcm.
      rewrite (pcm_of_mulaw_ext _ _ mulawBuffer Hstitch).
      exact (pcm_of_mulaw_closed Base64ToWavConverter.mulawDecode
               mulawBuffer Hconv). }
    split; [apply samples_of_length|].
    intros i Hi.
    pose proof (samples_of_read Base64ToWavConverter.mulawDecode mulawBuffer
                  i [] [] Hconv Hi) as Hread.
    rewrite app_nil_r in Hread. exact Hread.
  - exists (samples_of ImprovedAudioConverter.mulawDecode mulawBuffer).
    split.
    { unfold ImprovedAudioConverter.mulawToPcm.
      exact (pcm_of_mulaw_closed ImprovedAudioConverter.mulawDecode
               mulawBuffer Himp). }
    split.
    { unfold TwilioAudioProcessor.mulawToPcm.
      rewrite (pcm_of_mulaw_ext _ _ mulawBuffer Htwilio).
      exact (pcm_of_mulaw_closed ImprovedAudioConverter.mulawDecode
               mulawBuffer Himp). }
    split; [apply samples_of_length|].
    intros i Hi.
    pose proof (samples_of_read ImprovedAudioConverter.mulawDecode mulawBuffer
                  i [] [] Himp Hi) as Hread.
    rewrite app_nil_r in Hread. exact Hread.
Qed.

Lemma conversion_loops_store_every_sample_witness :
  Forall is_byte [0xFF; 0x00; 0x5A] /\
  exists pcm,
    Base64ToWavConverter.mulawToPcm [0xFF; 0x00; 0x5A] = JS.Ok pcm /\
    length pcm = 6%nat.
Proof.
  assert (Hbytes : Forall is_byte [0xFF; 0x00; 0x5A])
    by (repeat constructor; unfold is_byte; lia).
  split; [exact Hbytes|].
  destruct (conversion_loops_store_every_sample [0xFF; 0x00; 0x5A] Hbytes)
    as [[pcm [Hpcm [_ [Hlen _]]]] _].
  exists pcm. split; [exact Hpcm | exact Hlen].
Defined.

Lemma table_matches_shift_decoder_checked :
  forallb
    (fun b =>
       match ImprovedAudioConverter.mulawDecodeAlt b with
       | Some v => (v =? Base64ToWavConverter.mulawDecode b)
                   && (v =? AudioStitcher.mulawDecode b)
       | None => false
       end)
    all_bytes = true.
Proof. vm_compute. reflexivity. Qed.

Lemma table_on_bytes (mulawBuffer : JS.Buffer) :
  Forall is_byte mulawBuffer ->
  Forall (fun b => ImprovedAudioConverter.mulawDecodeAlt b
                   = Some (Base64ToWavConverter.mulawDecode b) /\
                   ImprovedAudioConverter.mulawDecodeAlt b
                   = Some (AudioStitcher.mulawDecode b)) mulawBuffer.
Proof.
  intros Hall. induction Hall as [|b rest Hb _ IH]; constructor; [|exact IH].
  pose proof (for_all_bytes _ table_matches_shift_decoder_checked b Hb) as H.
  cbv beta in H.
  destruct (ImprovedAudioConverter.mulawDecodeAlt b) as [v|]; [|discriminate H].
  apply andb_true_iff in H. destruct H as [H1 H2].
  apply Z.eqb_eq in H1, H2. split; congruence.
Qed.

(** X5.  The lookup table of the improved converter holds, for every
    byte, the value the decoder of the base64-to-wav converter (and of
    the stitcher) computes: with the alternative decoder the improved
    converter turns a buffer of bytes into exactly the PCM bytes those
    two tools produce. *)
Theorem alt_decoder_is_the_shift_decoder (mulawBuffer : JS.Buffer) :
  Forall is_byte mulawBuffer ->
  Forall (fun b => ImprovedAudioConverter.mulawDecodeAlt b
                   = Some (Base64ToWavConverter.mulawDecode b)) mulawBuffer /\
  ImprovedAudioConverter.mulawToPcm mulawBuffer true
  = Base64ToWavConverter.mulawToPcm mulawBuffer /\
  ImprovedAudioConverter.mulawToPcm mulawBuffer true
  = AudioStitcher.mulawToPcm mulawBuffer.
Proof.
  intros Hbytes.
  pose proof (table_on_bytes mulawBuffer Hbytes) as Htable.
  split; [|split].
  - eapply Forall_impl; [|exact Htable]. intros b [Hb _]. exact Hb.
  - unfold ImprovedAudioConverter.mulawToPcm, Base64ToWavConverter.mulawToPcm.
    apply pcm_of_mulaw_ext.
    eapply Forall_impl; [|exact Htable]. intros b [Hb _].
    cbv beta. rewrite Hb. reflexivity.
  - unfold ImprovedAudioConverter.mulawToPcm, AudioStitcher.mulawToPcm.
    apply pcm_of_mulaw_ext.
    eapply Forall_impl; [|exact Htable]. intros b [_ Hb].
    cbv beta. rewrite Hb. reflexivity.
Qed.

Lemma alt_decoder_is_the_shift_decoder_witness :
  Forall is_byte [0x00; 0x7F; 0xD5] /\
  ImprovedAudioConverter.mulawToPcm [0x00; 0x7F; 0xD5] true
  = Base64ToWavConverter.mulawToPcm [0x00; 0x7F; 0xD5].
Proof.
  assert (Hbytes : Forall is_byte [0x00; 0x7F; 0xD5])
    by (repeat constructor; unfold is_byte; lia).
  split; [exact Hbytes|].
  exact (proj1 (proj2 (alt_decoder_is_the_shift_decoder [0x00; 0x7F; 0xD5] Hbytes))).
Defined.

(** ** Whole files *)

Lemma unbase64_range (c : ascii) (v : Z) :
  JS.unbase64 c = Some v -> 0 <= v <= 63.
Proof.
  unfold JS.unbase64.
  set (n := Z.of_N (N_of_ascii c)).
  destruct ((65 <=? n) && (n <=? 90)) eqn:Hupper.
  { apply within_spec in Hupper. intros H. inversion H. lia. }
  destruct ((97 <=? n) && (n <=? 122)) eqn:Hlower.
  { apply within_spec in Hlower. intros H. inversion H. lia. }
  destruct ((48 <=? n) && (n <=? 57)) eqn:Hdigit.
  { apply within_spec in Hdigit. intros H. inversion H. lia. }
  destruct ((n =? 43) || (n =? 45)).
  { intros H. inversion H. lia. }
  destruct ((n =? 47) || (n =? 95)).
  { intros H. inversion H. lia. }
  discriminate.
Qed.

Lemma sextets_range (text : string) :
  Forall (fun v => 0 <= v <= 63) (JS.sextets text).
Proof.
  induction text as [|c rest IH]; simpl.
  - constructor.
  - destruct (N_of_ascii c =? 61)%N; [constructor|].
    destruct (JS.unbase64 c) as [v|] eqn:Hc; [|exact IH].
    constructor; [exact (unbase64_range c v Hc) | exact IH].
Qed.

Lemma unsextets_bytes (n : nat) :
  forall l, (length l <= n)%nat ->
    Forall (fun v => 0 <= v <= 63) l -> Forall is_byte (JS.unsextets l).
Proof.
  induction n as [|n IH]; intros l Hlen Hall.
  - destruct l; [constructor | simpl in Hlen; lia].
  - destruct l as [|a [|b [|c [|d rest]]]]; cbn [JS.unsextets]; try constructor.
    + inversion Hall as [|? ? Ha Hr]; subst. inversion Hr as [|? ? Hb _]; subst.
      unfold is_byte. Z.div_mod_to_equations. lia.
    + constructor.
    + inversion Hall as [|? ? Ha Hr]; subst. inversion Hr as [|? ? Hb _]; subst.
      unfold is_byte. Z.div_mod_to_equations. lia.
    + inversion Hall as [|? ? Ha Hr]; subst. inversion Hr as [|? ? Hb Hr2]; subst.
      inversion Hr2 as [|? ? Hc _]; subst.
      constructor; [|constructor].
      unfold is_byte. Z.div_mod_to_equations. lia.
    + inversion Hall as [|? ? Ha Hr]; subst. inversion Hr as [|? ? Hb _]; subst.
      unfold is_byte. Z.div_mod_to_equations. lia.
    + inversion Hall as [|? ? Ha Hr]; subst. inversion Hr as [|? ? Hb Hr2]; subst.
      inversion Hr2 as [|? ? Hc Hr3]; subst. inversion Hr3 as [|? ? Hd Hr4]; subst.
      constructor; [unfold is_byte; Z.div_mod_to_equations; lia|].
      constructor; [unfold is_byte; Z.div_mod_to_equations; lia|].
      apply IH; [simpl in Hlen; lia | exact Hr4].
Qed.

(** A decoded payload consists of bytes. *)
Lemma from_base64_bytes (text : string) :
  Forall is_byte (JS.from_base64 text).
Proof.
  unfold JS.from_base64.
  apply (unsextets_bytes (length (JS.sextets text))); [lia|].
  apply sextets_range.
Qed.

Lemma ToInt16_in_range (v : Z) : in_int16 v -> JS.ToInt16 v = v.
Proof.
  unfold in_int16, JS.ToInt16. intros Hv.
  change (2 ^ 15) with 32768. change (2 ^ 16) with 65536.
  Z.div_mod_to_equations. lia.
Qed.

(** A header followed by the samples of a buffer is a WAV file of
    [44 + 2 n] bytes whose data section holds the decoded samples. *)
Lemma wav_of_samples (decode : Z -> Z) (mulawBuffer : JS.Buffer) :
  Forall (fun b => in_int16 (decode b)) mulawBuffer ->
  36 + 2 * Z.of_nat (length mulawBuffer) <= 4294967295 ->
  length (header_bytes (36 + Z.of_nat (length (samples_of decode mulawBuffer)))
            1 8000 16000 2 16 (Z.of_nat (length (samples_of decode mulawBuffer)))
          ++ samples_of decode mulawBuffer)
  = (44 + 2 * length mulawBuffer)%nat /\
  telephony_wav_header
    (header_bytes (36 + Z.of_nat (length (samples_of decode mulawBuffer)))
       1 8000 16000 2 16 (Z.of_nat (length (samples_of decode mulawBuffer)))
     ++ samples_of decode mulawBuffer)
    (2 * Z.of_nat (length mulawBuffer)) /\
  holds_samples decode mulawBuffer 44
    (header_bytes (36 + Z.of_nat (length (samples_of decode mulawBuffer)))
       1 8000 16000 2 16 (Z.of_nat (length (samples_of decode mulawBuffer)))
     ++ samples_of decode mulawBuffer).
Proof.
  intros Hall Hfit.
  assert (Hsize : Z.of_nat (length (samples_of decode mulawBuffer))
                  = 2 * Z.of_nat (length mulawBuffer))
    by (rewrite samples_of_length; lia).
  rewrite Hsize.
  split; [|split].
  - rewrite length_app, header_bytes_length, samples_of_length. reflexivity.
  - apply header_read_back; lia.
  - intros i Hi.
    pose proof (samples_of_read decode mulawBuffer i
                  (header_bytes (36 + 2 * Z.of_nat (length mulawBuffer))
                     1 8000 16000 2 16 (2 * Z.of_nat (length mulawBuffer)))
                  [] Hall Hi) as Hread.
    rewrite header_bytes_length, app_nil_r in Hread. exact Hread.
Qed.

Lemma live_pcm_bytes (mulawData : JS.Buffer) :
  Forall is_byte mulawData ->
  flat_map (fun v => JS.le_bytes 2 (v mod 65536))
    (map (fun b => JS.ToInt16 (AudioBuffer.mulawToPcm b)) mulawData)
  = samples_of AudioBuffer.mulawToPcm mulawData.
Proof.
  intros Hall. induction Hall as [|b rest Hb _ IH].
  - reflexivity.
  - cbn [map flat_map samples_of]. rewrite IH.
    destruct (decoders_in_int16_on_bytes b Hb) as [_ [_ Hlive]].
    rewrite (ToInt16_in_range _ Hlive). reflexivity.
Qed.

(** X6.  The live server's [createWavBuffer] turns every buffer of [n]
    mu-law bytes (with [36 + 2 n] within the 32-bit size field) into a
    WAV file of [44 + 2 n] bytes: the canonical header with data size
    [2 n], followed by one 16-bit little-endian sample per input byte,
    the [i]-th being [mulawToPcm] of the [i]-th byte. *)
Theorem live_wav_buffer_holds_samples (mulawData : JS.Buffer) :
  Forall is_byte mulawData ->
  36 + 2 * Z.of_nat (length mulawData) <= 4294967295 ->
  exists wav,
    AudioBuffer.createWavBuffer mulawData = JS.Ok wav /\
    length wav = (44 + 2 * length mulawData)%nat /\
    telephony_wav_header wav (2 * Z.of_nat (length mulawData)) /\
    holds_samples AudioBuffer.mulawToPcm mulawData 44 wav.
Proof.
  intros Hbytes Hfit.
  pose proof (live_decoder_on_bytes mulawData Hbytes) as Hall.
  exists (header_bytes
            (36 + Z.of_nat (length (samples_of AudioBuffer.mulawToPcm mulawData)))
            1 8000 16000 2 16
            (Z.of_nat (length (samples_of AudioBuffer.mulawToPcm mulawData)))
          ++ samples_of AudioBuffer.mulawToPcm mulawData).
  split; [|exact (wav_of_samples AudioBuffer.mulawToPcm mulawData Hall Hfit)].
  unfold AudioBuffer.createWavBuffer.
  rewrite (live_pcm_bytes mulawData Hbytes).
  destruct (wav_header_closed
              (Z.of_nat (length (samples_of AudioBuffer.mulawToPcm mulawData))))
    as [Hheader _];
    [lia | rewrite samples_of_length; lia |].
  rewrite Hheader. cbn [JS.bind JS.concat List.concat].
  now rewrite app_nil_r.
Qed.

Lemma live_wav_buffer_holds_samples_witness :
  Forall is_byte [0xFF; 0x00; 0x00] /\
  36 + 2 * Z.of_nat (length [0xFF; 0x00; 0x00]) <= 4294967295 /\
  exists wav,
    AudioBuffer.createWavBuffer [0xFF; 0x00; 0x00] = JS.Ok wav /\
    length wav = 50%nat.
Proof.
  assert (Hbytes : Forall is_byte [0xFF; 0x00; 0x00])
    by (repeat constructor; unfold is_byte; lia).
  assert (Hfit : 36 + 2 * Z.of_nat (length [0xFF; 0x00; 0x00]) <= 4294967295)
    by (simpl; lia).
  split; [exact Hbytes|]. split; [exact Hfit|].
  destruct (live_wav_buffer_holds_samples [0xFF; 0x00; 0x00] Hbytes Hfit)
    as [wav [Hwav [Hlen _]]].
  exists wav. split; [exact Hwav | exact Hlen].
Defined.

(** X7.  [convertBase64ToWav] turns every base64 text into a WAV file:
    with [n] the number of bytes the text decodes to (and [36 + 2 n]
    within the 32-bit size field), the file has [44 + 2 n] bytes, the
    canonical header with data size [2 n], and as [i]-th sample the
    decoded value of the [i]-th byte. *)
Theorem base64_to_wav_file (base64Data : string) :
  36 + 2 * Z.of_nat (length (JS.from_base64 base64Data)) <= 4294967295 ->
  exists wav,
    Base64ToWavConverter.convertBase64ToWav telephony_format base64Data = JS.Ok wav /\
    length wav = (44 + 2 * length (JS.from_base64 base64Data))%nat /\
    telephony_wav_header wav (2 * Z.of_nat (length (JS.from_base64 base64Data))) /\
    holds_samples Base64ToWavConverter.mulawDecode (JS.from_base64 base64Data) 44 wav.
Proof.
  intros Hfit.
  pose proof (shift_decoder_on_bytes _ (from_base64_bytes base64Data)) as Hall.
  exists (header_bytes
            (36 + Z.of_nat (length (samples_of Base64ToWavConverter.mulawDecode
                                      (JS.from_base64 base64Data))))
            1 8000 16000 2 16
            (Z.of_nat (length (samples_of Base64ToWavConverter.mulawDecode
                                 (JS.from_base64 base64Data))))
          ++ samples_of Base64ToWavConverter.mulawDecode (JS.from_base64 base64Data)).
  split; [|exact (wav_of_samples _ _ Hall Hfit)].
  unfold Base64ToWavConverter.convertBase64ToWav, Base64ToWavConverter.mulawToPcm.
  rewrite (pcm_of_mulaw_closed _ _ Hall). cbn [JS.bind].
  destruct (wav_buffer_closed
              (samples_of Base64ToWavConverter.mulawDecode (JS.from_base64 base64Data)))
    as [Hwav _]; [rewrite samples_of_length; lia|].
  exact Hwav.
Qed.

Lemma base64_to_wav_file_witness :
  36 + 2 * Z.of_nat (length (JS.from_base64 "/wAA")) <= 4294967295 /\
  exists wav,
    Base64ToWavConverter.convertBase64ToWav telephony_format "/wAA" = JS.Ok wav /\
    length wav = (44 + 2 * length (JS.from_base64 "/wAA"))%nat.
Proof.
  assert (Hfit : 36 + 2 * Z.of_nat (length (JS.from_base64 "/wAA")) <= 4294967295)
    by (vm_compute; discriminate).
  split; [exact Hfit|].
  destruct (base64_to_wav_file "/wAA" Hfit) as [wav [Hwav [Hlen _]]].
  exists wav. split; [exact Hwav | exact Hlen].
Defined.

(** X8.  [AudioStitcher.createWavFile] on a stitcher with at least one
    chunk decodes the concatenation of the chunk texts: with [n] the
    number of bytes it decodes to, the file has [44 + 2 n] bytes, the
    canonical header with data size [2 n] and the decoded sample of
    each byte; it is byte for byte the file [convertBase64ToWav] writes
    for the joined text. *)
Theorem stitcher_wav_file (this : AudioStitcher.t) :
  AudioStitcher.audioChunks this <> [] ->
  36 + 2 * Z.of_nat (length (JS.from_base64 (JS.join (AudioStitcher.audioChunks this))))
  <= 4294967295 ->
  exists wav,
    AudioStitcher.createWavFile this = JS.Ok wav /\
    Base64ToWavConverter.convertBase64ToWav telephony_format
      (JS.join (AudioStitcher.audioChunks this)) = JS.Ok wav /\
    length wav
    = (44 + 2 * length (JS.from_base64 (JS.join (AudioStitcher.audioChunks this))))%nat /\
    telephony_wav_header wav
      (2 * Z.of_nat (length (JS.from_base64
                               (JS.join (AudioStitcher.audioChunks this))))) /\
    holds_samples Base64ToWavConverter.mulawDecode
      (JS.from_base64 (JS.join (AudioStitcher.audioChunks this))) 44 wav.
Proof.
  intros Hchunks Hfit.
  set (mulawBuffer := JS.from_base64 (JS.join (AudioStitcher.audioChunks this))) in *.
  assert (Hbytes : Forall is_byte mulawBuffer) by apply from_base64_bytes.
  pose proof (shift_decoder_on_bytes _ Hbytes) as Hall.
  destruct (decoder_copies_on_bytes _ Hbytes) as [Hsame _].
  destruct (wav_buffer_closed (samples_of Base64ToWavConverter.mulawDecode mulawBuffer))
    as [Hconv Hstitch]; [rewrite samples_of_length; lia|].
  exists (header_bytes
            (36 + Z.of_nat (length (samples_of Base64ToWavConverter.mulawDecode
                                      mulawBuffer)))
            1 8000 16000 2 16
            (Z.of_nat (length (samples_of Base64ToWavConverter.mulawDecode mulawBuffer)))
          ++ samples_of Base64ToWavConverter.mulawDecode mulawBuffer).
  split; [|split; [|exact (wav_of_samples _ _ Hall Hfit)]].
  - unfold AudioStitcher.createWavFile.
    destruct (AudioStitcher.audioChunks this) as [|chunk chunks] eqn:Hlist;
      [contradiction|].
    cbn [length Nat.eqb].
    fold mulawBuffer. unfold AudioStitcher.mulawToPcm.
    rewrite (pcm_of_mulaw_ext _ _ mulawBuffer Hsame).
    rewrite (pcm_of_mulaw_closed _ _ Hall). cbn [JS.bind].
    exact Hstitch.
  - unfold Base64ToWavConverter.convertBase64ToWav, Base64ToWavConverter.mulawToPcm.
    fold mulawBuffer.
    rewrite (pcm_of_mulaw_closed _ _ Hall). cbn [JS.bind].
    exact Hconv.
Qed.

Lemma stitcher_wav_file_witness :
  AudioStitcher.audioChunks
    (AudioStitcher.addChunk "AAAA" (AudioStitcher.addChunk "/wAA" AudioStitcher.new))
  <> [] /\
  exists wav,
    AudioStitcher.createWavFile
      (AudioStitcher.addChunk "AAAA" (AudioStitcher.addChunk "/wAA" AudioStitcher.new))
    = JS.Ok wav /\
    length wav = 56%nat.
Proof.
  assert (Hchunks :
    AudioStitcher.audioChunks
      (AudioStitcher.addChunk "AAAA" (AudioStitcher.addChunk "/wAA" AudioStitcher.new))
    <> []) by discriminate.
  split; [exact Hchunks|].
  destruct (stitcher_wav_file _ Hchunks) as [wav [Hwav [_ [Hlen _]]]].
  - vm_compute. discriminate.
  - exists wav. split; [exact Hwav | exact Hlen].
Defined.

Lemma concat_bytes (chunks : list JS.Buffer) :
  Forall (Forall is_byte) chunks -> Forall is_byte (JS.concat chunks).
Proof.
  intros Hall. unfold JS.concat.
  induction Hall as [|chunk rest Hchunk _ IH]; simpl.
  - constructor.
  - apply Forall_app. split; assumption.
Qed.

Lemma spec_flush_bytes_are_bytes (frames : list Data) :
  Forall is_byte (spec_flush_bytes frames).
Proof.
  unfold spec_flush_bytes. apply concat_bytes.
  apply Forall_map, Forall_forall. intros msg _. apply from_base64_bytes.
Qed.

(** X9.  [convertToWav] without gain, on an array that holds at least
    one media message: with [n] the number of payload bytes, the WAV
    file (returned, or written when an output path is given) has
    [44 + 2 n] bytes, the canonical header with data size [2 n], and
    as samples the decoded payload bytes taken in ascending order of
    sequence number. *)
Theorem twilio_array_to_wav (items : list Data) (outputPath : option string) :
  filter is_media items <> [] ->
  36 + 2 * Z.of_nat (length (spec_flush_bytes (filter is_media items))) <= 4294967295 ->
  exists wav,
    TwilioAudioProcessor.convertToWav telephony_format
      (TwilioAudioProcessor.JArray items) outputPath
    = JS.Ok (match outputPath with
             | Some path =>
                 if JS.truthy_string path
                 then TwilioAudioProcessor.Written path wav
                 else TwilioAudioProcessor.Returned wav
             | None => TwilioAudioProcessor.Returned wav
             end) /\
    length wav = (44 + 2 * length (spec_flush_bytes (filter is_media items)))%nat /\
    telephony_wav_header wav
      (2 * Z.of_nat (length (spec_flush_bytes (filter is_media items)))) /\
    holds_samples TwilioAudioProcessor.mulawDecode
      (spec_flush_bytes (filter is_media items)) 44 wav.
Proof.
  intros Hmedia Hfit.
  set (mulawBuffer := spec_flush_bytes (filter is_media items)) in *.
  assert (Hbytes : Forall is_byte mulawBuffer) by apply spec_flush_bytes_are_bytes.
  pose proof (branching_decoder_on_bytes _ Hbytes) as Himp.
  destruct (decoder_copies_on_bytes _ Hbytes) as [_ Hsame].
  assert (Hall : Forall (fun b => in_int16 (TwilioAudioProcessor.mulawDecode b))
                   mulawBuffer).
  { clear - Himp Hsame. induction Himp as [|b rest Hb _ IH].
    - constructor.
    - inversion Hsame as [|? ? Heq Hrest]; subst.
      constructor; [rewrite Heq; exact Hb | exact (IH Hrest)]. }
  exists (header_bytes
            (36 + Z.of_nat (length (samples_of TwilioAudioProcessor.mulawDecode
                                      mulawBuffer)))
            1 8000 16000 2 16
            (Z.of_nat (length (samples_of TwilioAudioProcessor.mulawDecode mulawBuffer)))
          ++ samples_of TwilioAudioProcessor.mulawDecode mulawBuffer).
  split; [|exact (wav_of_samples _ _ Hall Hfit)].
  unfold TwilioAudioProcessor.convertToWav,
    TwilioAudioProcessor.extractAudioFromTwilioArray.
  destruct (filter is_media items) as [|msg rest] eqn:Hlist; [contradiction|].
  cbn [length Nat.eqb JS.bind].
  change (JS.concat
            (map (fun m => JS.from_base64 (payload_of m))
               (TwilioAudioProcessor.sort (msg :: rest))))
    with (spec_flush_bytes (msg :: rest)).
  fold mulawBuffer.
  unfold TwilioAudioProcessor.mulawToPcm.
  rewrite (pcm_of_mulaw_closed _ _ Hall). cbn [JS.bind].
  assert (Hheader :
    TwilioAudioProcessor.createWavHeader telephony_format
      (Z.of_nat (length (samples_of TwilioAudioProcessor.mulawDecode mulawBuffer)))
    = JS.Ok (header_bytes
               (36 + Z.of_nat (length (samples_of TwilioAudioProcessor.mulawDecode
                                         mulawBuffer)))
               1 8000 16000 2 16
               (Z.of_nat (length (samples_of TwilioAudioProcessor.mulawDecode
                                    mulawBuffer))))).
  { destruct (wav_header_closed
                (Z.of_nat (length (samples_of TwilioAudioProcessor.mulawDecode
                                     mulawBuffer))))
      as [_ Himproved]; [lia | rewrite samples_of_length; lia |].
    exact Himproved. }
  rewrite Hheader. cbn [JS.bind JS.concat List.concat].
  rewrite app_nil_r.
  destruct outputPath as [path|]; [destruct (JS.truthy_string path)|];
    reflexivity.
Qed.

Lemma twilio_array_to_wav_witness :
  filter is_media [media_message 1 "AAA="; start_message "CA-A"; media_message 0 "/w=="]
  <> [] /\
  exists wav,
    TwilioAudioProcessor.convertToWav telephony_format
      (TwilioAudioProcessor.JArray
         [media_message 1 "AAA="; start_message "CA-A"; media_message 0 "/w=="])
      None
    = JS.Ok (TwilioAudioProcessor.Returned wav) /\
    length wav = 50%nat.
Proof.
  assert (Hmedia :
    filter is_media
      [media_message 1 "AAA="; start_message "CA-A"; media_message 0 "/w=="] <> [])
    by (vm_compute; discriminate).
  split; [exact Hmedia|].
  destruct (twilio_array_to_wav
              [media_message 1 "AAA="; start_message "CA-A"; media_message 0 "/w=="]
              None Hmedia) as [wav [Hwav [Hlen _]]].
  - vm_compute. discriminate.
  - exists wav. split; [exact Hwav | exact Hlen].
Defined.

(** X10.  A data size that does not fit the 32-bit header field is
    refused: every header writer raises a RangeError instead of
    writing a truncated size. *)
Theorem wav_header_rejects_oversize (dataSize : Z) :
  4294967295 < 36 + dataSize ->
  AudioBuffer.createWavHeader dataSize = JS.Throw JS.RangeError /\
  ImprovedAudioConverter.createWavHeader telephony_format dataSize
  = JS.Throw JS.RangeError /\
  TwilioAudioProcessor.createWavHeader telephony_format dataSize
  = JS.Throw JS.RangeError.
Proof.
  intros Hbig.
  assert (Hthrow :
    write_wav_fields (36 + dataSize) 1 8000 16000 2 16 dataSize (JS.alloc 44)
    = JS.Throw JS.RangeError).
  { unfold write_wav_fields, JS.write, JS.alloc.
    change (JS.bytes_of_string "RIFF") with [82; 73; 70; 70].
    cbn [repeat]. buffer_step.
    unfold JS.writeUInt32LE at 1.
    replace ((0 <=? 36 + dataSize) && (36 + dataSize <=? 4294967295)) with false
      by (symmetry; apply andb_false_iff; right; apply Z.leb_gt; lia).
    reflexivity. }
  repeat split; rewrite <- Hthrow; reflexivity.
Qed.

Lemma wav_header_rejects_oversize_witness :
  4294967295 < 36 + 4294967260 /\
  AudioBuffer.createWavHeader 4294967260 = JS.Throw JS.RangeError.
Proof.
  assert (Hbig : 4294967295 < 36 + 4294967260) by lia.
  split; [exact Hbig|].
  exact (proj1 (wav_header_rejects_oversize 4294967260 Hbig)).
Defined.

(** ** What the live server flushes, and when *)

Lemma processAccumulatedAudio_flushed (now : Z) (this this' : AudioBuffer.t)
    (segment : AudioBuffer.Segment) :
  AudioBuffer.processAccumulatedAudio now this = (this', AudioBuffer.Flushed segment) ->
  3000 <= now - AudioBuffer.lastProcessTime this /\
  AudioBuffer.minChunksBeforeProcessing this
  <= Z.of_nat (length (AudioBuffer.audioChunks this)) /\
  AudioBuffer.sessionStartTime (AudioBuffer.session this) <> None /\
  AudioBuffer.seg_bytes segment = JS.concat (AudioBuffer.audioChunks this) /\
  AudioBuffer.seg_sessionId segment = AudioBuffer.sessionId (AudioBuffer.session this).
Proof.
  unfold AudioBuffer.processAccumulatedAudio.
  destruct (now - AudioBuffer.lastProcessTime this <? 3000) eqn:Hrecent;
    [discriminate|].
  destruct (Z.of_nat (length (AudioBuffer.audioChunks this))
            <? AudioBuffer.minChunksBeforeProcessing this) eqn:Hfew;
    [discriminate|].
  destruct (AudioBuffer.sessionStartTime (AudioBuffer.session this)) eqn:Hs;
    [|discriminate].
  intros H. inversion H; subst. cbn [AudioBuffer.seg_bytes AudioBuffer.seg_sessionId].
  apply Z.ltb_ge in Hrecent, Hfew.
  repeat split; try lia. discriminate.
Qed.

Lemma forceProcessAudio_flushed (now : Z) (this this' : AudioBuffer.t)
    (segment : AudioBuffer.Segment) :
  AudioBuffer.forceProcessAudio now this = (this', AudioBuffer.Flushed segment) ->
  AudioBuffer.processAccumulatedAudio now (disarmed this)
  = (this', AudioBuffer.Flushed segment).
Proof.
  unfold AudioBuffer.forceProcessAudio. cbn [AudioBuffer.audioChunks].
  destruct (0 <? length (AudioBuffer.audioChunks this))%nat; [|discriminate].
  intros H. exact H.
Qed.

Lemma launched_effects (k : Server.continuation) (o : AudioBuffer.outcome)
    (s : Server.t) :
  snd (Server.launched k o s)
  = match o with
    | AudioBuffer.Skipped => []
    | AudioBuffer.Flushed segment => [Server.TranscribeAudioMulaw segment]
    | AudioBuffer.Rejected e => [Server.UnhandledRejection e]
    end.
Proof.
  destruct o as [|segment|e]; cbn [Server.launched snd]; try reflexivity.
  destruct (AudioBuffer.seg_bytes segment); reflexivity.
Qed.

(** X11.  Whatever the event (a tick, a stop message, a close), a
    segment reaches the transcriber only through the two gates: at least
    [minChunksBeforeProcessing] chunks were pending, at least 3000 ms
    had passed since the last processing, and a call had started.  The
    segment then is the only effect of the event, it holds exactly the
    pending chunks in order, and it carries the buffer's session id. *)
Theorem every_segment_passed_the_gates (now : Z) (e : Server.event) (s : Server.t)
    (segment : AudioBuffer.Segment) :
  In (Server.TranscribeAudioMulaw segment) (snd (Server.step now e s)) ->
  snd (Server.step now e s) = [Server.TranscribeAudioMulaw segment] /\
  AudioBuffer.seg_bytes segment
  = JS.concat (AudioBuffer.audioChunks (Server.audioBuffer s)) /\
  AudioBuffer.seg_sessionId segment
  = AudioBuffer.sessionId (AudioBuffer.session (Server.audioBuffer s)) /\
  AudioBuffer.minChunksBeforeProcessing (Server.audioBuffer s)
  <= Z.of_nat (length (AudioBuffer.audioChunks (Server.audioBuffer s))) /\
  3000 <= now - AudioBuffer.lastProcessTime (Server.audioBuffer s) /\
  AudioBuffer.sessionStartTime (AudioBuffer.session (Server.audioBuffer s)) <> None.
Proof.
  assert (Hforce : forall k,
    In (Server.TranscribeAudioMulaw segment)
       (snd (let (b, o) := AudioBuffer.forceProcessAudio now (Server.audioBuffer s) in
             Server.launched k o (Server.with_buffer b s))) ->
    snd (let (b, o) := AudioBuffer.forceProcessAudio now (Server.audioBuffer s) in
         Server.launched k o (Server.with_buffer b s))
    = [Server.TranscribeAudioMulaw segment] /\
    AudioBuffer.seg_bytes segment
    = JS.concat (AudioBuffer.audioChunks (Server.audioBuffer s)) /\
    AudioBuffer.seg_sessionId segment
    = AudioBuffer.sessionId (AudioBuffer.session (Server.audioBuffer s)) /\
    AudioBuffer.minChunksBeforeProcessing (Server.audioBuffer s)
    <= Z.of_nat (length (AudioBuffer.audioChunks (Server.audioBuffer s))) /\
    3000 <= now - AudioBuffer.lastProcessTime (Server.audioBuffer s) /\
    AudioBuffer.sessionStartTime (AudioBuffer.session (Server.audioBuffer s)) <> None).
  { intros k.
    destruct (AudioBuffer.forceProcessAudio now (Server.audioBuffer s))
      as [b o] eqn:Hf.
    rewrite launched_effects.
    destruct o as [|flushed|err]; cbn [In]; intros Hin;
      try contradiction; try (destruct Hin as [Hin|[]]; discriminate Hin).
    destruct Hin as [Hin|[]]. inversion Hin; subst flushed.
    apply forceProcessAudio_flushed, processAccumulatedAudio_flushed in Hf.
    cbn [disarmed AudioBuffer.audioChunks AudioBuffer.lastProcessTime
         AudioBuffer.minChunksBeforeProcessing AudioBuffer.session] in Hf.
    destruct Hf as [Hlate [Hfull [Hstarted [Hbytes Hid]]]].
    repeat split; assumption. }
  destruct e as [connection data| connection | | k]; cbn [Server.step].
  - unfold Server.on_message.
    destruct (String.eqb (data_event data) "connected"); [intros []|].
    destruct (String.eqb (data_event data) "start"); [intros []|].
    destruct (is_media data); [intros []|].
    destruct (String.eqb (data_event data) "stop"); [|intros []].
    apply Hforce.
  - unfold Server.on_close. apply Hforce.
  - unfold Server.on_tick.
    destruct (AudioBuffer.processingInterval (Server.audioBuffer s));
      [|intros []].
    destruct (AudioBuffer.processAccumulatedAudio now (Server.audioBuffer s))
      as [b o] eqn:Hp.
    rewrite launched_effects.
    destruct o as [|flushed|err]; cbn [In]; intros Hin;
      try contradiction; try (destruct Hin as [Hin|[]]; discriminate Hin).
    destruct Hin as [Hin|[]]. inversion Hin; subst flushed.
    apply processAccumulatedAudio_flushed in Hp.
    destruct Hp as [Hlate [Hfull [Hstarted [Hbytes Hid]]]].
    repeat split; assumption.
  - intros [].
Qed.

Lemma every_segment_passed_the_gates_witness :
  exists segment,
    In (Server.TranscribeAudioMulaw segment)
       (snd (Server.step 1004100 Server.Tick full_server)) /\
    AudioBuffer.seg_bytes segment
    = JS.concat (AudioBuffer.audioChunks (Server.audioBuffer full_server)).
Proof.
  eexists.
  assert (Hin :
    In (Server.TranscribeAudioMulaw
          {| AudioBuffer.seg_sessionId := Some "CA-A";
             AudioBuffer.seg_bytes := repeat 255 100 |})
       (snd (Server.step 1004100 Server.Tick full_server)))
    by (vm_compute; left; reflexivity).
  split; [exact Hin|].
  exact (proj1 (proj2 (every_segment_passed_the_gates _ _ _ _ Hin))).
Defined.

(** ** Invariants of the live buffer *)















(** ** After a stop, during a transcription, at close *)

Lemma media_of_cons_media (now : Z) (connection : nat) (data : Data)
    (rest : list (Z * Server.event)) :
  is_media data = true ->
  media_of ((now, Server.Message connection data) :: rest) = data :: media_of rest.
Proof.
  intros Hmedia. unfold media_of. cbn [flat_map snd]. rewrite Hmedia. reflexivity.
Qed.

(** X13.  Once [forceProcessAudio] has cleared the timer of a recording
    buffer (a stop message was handled), media messages no longer arm a
    timer: whatever media and ticks follow, the chunks pile up in the
    buffer and nothing is handed to the transcriber. *)
Theorem stopped_buffer_never_flushes (events : list (Z * Server.event)) :
  Forall is_media_or_tick events ->
  forall s,
    AudioBuffer.isRecording (Server.audioBuffer s) = true ->
    AudioBuffer.processingInterval (Server.audioBuffer s) = None ->
    snd (Server.run events s) = [] /\
    AudioBuffer.processingInterval
      (Server.audioBuffer (fst (Server.run events s))) = None /\
    AudioBuffer.audioChunks (Server.audioBuffer (fst (Server.run events s)))
    = AudioBuffer.audioChunks (Server.audioBuffer s) ++ chunks_of (media_of events).
Proof.
  induction 1 as [|[now e] rest Hhead _ IH]; intros s Hrec Htimer.
  - cbn. rewrite app_nil_r. repeat split; assumption.
  - cbn [Server.run].
    destruct Hhead as [[connection [data [He Hmedia]]] | Htick]; cbn [snd] in *.
    + subst e.
      rewrite (media_message_appends now connection data s Hmedia).
      specialize (IH (Server.with_buffer
                        (AudioBuffer.addAudioChunk (payload_of data)
                           (Server.audioBuffer s)) s)).
      cbn [Server.with_buffer Server.audioBuffer AudioBuffer.addAudioChunk
           AudioBuffer.isRecording AudioBuffer.processingInterval
           AudioBuffer.audioChunks] in IH.
      rewrite Hrec in IH. specialize (IH eq_refl Htimer).
      destruct (Server.run rest _) as [s2 effects2]. cbn [fst snd] in *.
      destruct IH as [Heff [Hoff Hchunks]].
      rewrite (media_of_cons_media now connection data rest Hmedia).
      split; [now rewrite Heff|]. split; [exact Hoff|].
      rewrite Hchunks. cbn [chunks_of map]. now rewrite <- app_assoc.
    + subst e. cbn [Server.step]. unfold Server.on_tick. rewrite Htimer.
      specialize (IH s Hrec Htimer).
      destruct (Server.run rest s) as [s2 effects2]. cbn [fst snd] in *.
      exact IH.
Qed.

Lemma stopped_buffer_never_flushes_witness :
  Forall is_media_or_tick
    [(1002000, Server.Message 1 (media_message 42 "/w=="));
     (1005000, Server.Tick)] /\
  AudioBuffer.isRecording (Server.audioBuffer forty_frames_stopped) = true /\
  AudioBuffer.processingInterval (Server.audioBuffer forty_frames_stopped) = None /\
  snd (Server.run
         [(1002000, Server.Message 1 (media_message 42 "/w=="));
          (1005000, Server.Tick)]
         forty_frames_stopped) = [].
Proof.
  assert (Hevents :
    Forall is_media_or_tick
      [(1002000, Server.Message 1 (media_message 42 "/w=="));
       (1005000, Server.Tick)]).
  { constructor.
    - left. exists 1%nat, (media_message 42 "/w=="). split; reflexivity.
    - constructor; [right; reflexivity | constructor]. }
  assert (Hrec :
    AudioBuffer.isRecording (Server.audioBuffer forty_frames_stopped) = true)
    by (vm_compute; reflexivity).
  assert (Htimer :
    AudioBuffer.processingInterval (Server.audioBuffer forty_frames_stopped) = None)
    by (vm_compute; reflexivity).
  split; [exact Hevents|]. split; [exact Hrec|]. split; [exact Htimer|].
  exact (proj1 (stopped_buffer_never_flushes _ Hevents forty_frames_stopped
                  Hrec Htimer)).
Defined.




Lemma reset_after_changes (this : AudioBuffer.t) (now : Z) :
  AudioBuffer.reset (disarmed this) = AudioBuffer.reset this /\
  AudioBuffer.reset
    (AudioBuffer.processAccumulatedAudio_resume
       (fst (AudioBuffer.processAccumulatedAudio now (disarmed this))))
  = AudioBuffer.reset this.
Proof.
  split; [reflexivity|].
  unfold AudioBuffer.processAccumulatedAudio.
  destruct (now - AudioBuffer.lastProcessTime (disarmed this) <? 3000);
    [reflexivity|].
  destruct (Z.of_nat (length (AudioBuffer.audioChunks (disarmed this)))
            <? AudioBuffer.minChunksBeforeProcessing (disarmed this));
    [reflexivity|].
  destruct (AudioBuffer.sessionStartTime (AudioBuffer.session (disarmed this)));
    reflexivity.
Qed.

(** X15.  When a call has started, closing the connection always ends
    with the buffer reset: at once when nothing is flushed, and
    otherwise when the transcription of the final segment settles.  No
    chunk, session field or timer of the closed call survives. *)
Theorem close_ends_in_reset (now : Z) (connection : nat) (s : Server.t) :
  AudioBuffer.sessionStartTime (AudioBuffer.session (Server.audioBuffer s)) <> None ->
  Server.audioBuffer
    (Server.on_settled (length (Server.suspended s))
       (fst (Server.step now (Server.Close connection) s)))
  = AudioBuffer.reset (Server.audioBuffer s).
Proof.
  intros Hstarted.
  destruct (reset_after_changes (Server.audioBuffer s) now) as [Hdis Hres].
  assert (Hnone : forall b acts,
    Server.on_settled (length (Server.suspended s))
      {| Server.audioBuffer := b; Server.activeCalls := acts;
         Server.suspended := Server.suspended s |}
    = {| Server.audioBuffer := b; Server.activeCalls := acts;
         Server.suspended := Server.suspended s |}).
  { intros b acts. unfold Server.on_settled. cbn [Server.suspended].
    replace (nth_error (Server.suspended s) (length (Server.suspended s)))
      with (@None Server.continuation); [reflexivity|].
    symmetry. apply nth_error_None. lia. }
  cbn [Server.step]. unfold Server.on_close, AudioBuffer.forceProcessAudio.
  cbn [AudioBuffer.audioChunks].
  fold (disarmed (Server.audioBuffer s)).
  destruct (0 <? length (AudioBuffer.audioChunks (Server.audioBuffer s)))%nat.
  - revert Hres. 
    destruct (AudioBuffer.processAccumulatedAudio now (disarmed (Server.audioBuffer s)))
      as [b o] eqn:Hp.
    cbn [fst]. intros Hres.
    destruct o as [|segment|e].
    + cbn [Server.launched fst]. unfold Server.reset, Server.with_buffer.
      cbn [Server.audioBuffer Server.activeCalls Server.suspended].
      rewrite Hnone. cbn [Server.audioBuffer].
      unfold AudioBuffer.processAccumulatedAudio in Hp.
      destruct (now - AudioBuffer.lastProcessTime (disarmed (Server.audioBuffer s))
                <? 3000).
      { inversion Hp; subst b. exact Hdis. }
      destruct (Z.of_nat (length (AudioBuffer.audioChunks
                                    (disarmed (Server.audioBuffer s))))
                <? AudioBuffer.minChunksBeforeProcessing
                     (disarmed (Server.audioBuffer s))).
      { inversion Hp; subst b. exact Hdis. }
      destruct (AudioBuffer.sessionStartTime
                  (AudioBuffer.session (disarmed (Server.audioBuffer s))));
        discriminate Hp.
    + cbn [Server.launched].
      destruct (AudioBuffer.seg_bytes segment) as [|byte bytes].
      * cbn [fst]. unfold Server.continue, Server.reset, Server.with_buffer.
        cbn [Server.audioBuffer Server.activeCalls Server.suspended].
        rewrite Hnone. cbn [Server.audioBuffer]. exact Hres.
      * cbn [fst]. unfold Server.on_settled, Server.with_buffer.
        cbn [Server.suspended Server.audioBuffer Server.activeCalls].
        rewrite nth_error_app2 by lia. rewrite Nat.sub_diag. cbn [nth_error].
        unfold Server.continue, Server.reset, Server.with_buffer.
        cbn [Server.audioBuffer]. exact Hres.
    + exfalso.
      unfold AudioBuffer.processAccumulatedAudio in Hp.
      destruct (now - AudioBuffer.lastProcessTime (disarmed (Server.audioBuffer s))
                <? 3000); [discriminate Hp|].
      destruct (Z.of_nat (length (AudioBuffer.audioChunks
                                    (disarmed (Server.audioBuffer s))))
                <? AudioBuffer.minChunksBeforeProcessing
                     (disarmed (Server.audioBuffer s))); [discriminate Hp|].
      cbn [disarmed AudioBuffer.session] in Hp.
      destruct (AudioBuffer.sessionStartTime
                  (AudioBuffer.session (Server.audioBuffer s)));
        [discriminate Hp | now apply Hstarted].
  - cbn [Server.launched fst]. unfold Server.reset, Server.with_buffer.
    cbn [Server.audioBuffer Server.activeCalls Server.suspended].
    rewrite Hnone. cbn [Server.audioBuffer]. exact Hdis.
Qed.

Lemma close_ends_in_reset_witness :
  AudioBuffer.sessionStartTime (AudioBuffer.session (Server.audioBuffer full_server))
  <> None /\
  Server.audioBuffer
    (Server.on_settled (length (Server.suspended full_server))
       (fst (Server.step 1004100 (Server.Close 1) full_server)))
  = AudioBuffer.reset (Server.audioBuffer full_server).
Proof.
  assert (Hstarted :
    AudioBuffer.sessionStartTime (AudioBuffer.session (Server.audioBuffer full_server))
    <> None) by (vm_compute; discriminate).
  split; [exact Hstarted|].
  exact (close_ends_in_reset 1004100 1 full_server Hstarted).
Defined.

(** ** The extractor of the Twilio array converter *)

Lemma same_key_same_message (messages : list Data) (a b : Data) :
  NoDup (map data_sequenceNumber messages) ->
  In a messages -> In b messages ->
  data_sequenceNumber a = data_sequenceNumber b -> a = b.
Proof.
  induction messages as [|x rest IH]; intros Hnodup Ha Hb Hkey; [destruct Ha|].
  cbn [map] in Hnodup. inversion Hnodup as [|? ? Hfresh Hrest]; subst.
  destruct Ha as [Ha | Ha]; destruct Hb as [Hb | Hb].
  - congruence.
  - subst x. exfalso. apply Hfresh. rewrite Hkey.
    apply in_map. exact Hb.
  - subst x. exfalso. apply Hfresh. rewrite <- Hkey.
    apply in_map. exact Ha.
  - exact (IH Hrest Ha Hb Hkey).
Qed.

Lemma sorted_distinct_unique (l1 : list Data) :
  forall l2,
    StronglySorted seq_le l1 -> StronglySorted seq_le l2 ->
    Permutation l1 l2 ->
    NoDup (map data_sequenceNumber l1) ->
    l1 = l2.
Proof.
  induction l1 as [|a rest1 IH]; intros l2 Hs1 Hs2 Hperm Hnodup.
  - apply Permutation_nil in Hperm. now subst.
  - destruct l2 as [|b rest2].
    { apply Permutation_sym, Permutation_nil in Hperm. discriminate Hperm. }
    inversion Hs1 as [|? ? Hrest1 Hall1]; subst.
    inversion Hs2 as [|? ? Hrest2 Hall2]; subst.
    assert (Hb : In b (a :: rest1)).
    { apply (Permutation_in b (Permutation_sym Hperm)). now left. }
    assert (Ha : In a (b :: rest2)).
    { apply (Permutation_in a Hperm). now left. }
    assert (Hab : data_sequenceNumber a <= data_sequenceNumber b).
    { destruct Hb as [Hb | Hb]; [subst; lia|].
      rewrite Forall_forall in Hall1. exact (Hall1 b Hb). }
    assert (Hba : data_sequenceNumber b <= data_sequenceNumber a).
    { destruct Ha as [Ha | Ha]; [subst; lia|].
      rewrite Forall_forall in Hall2. exact (Hall2 a Ha). }
    assert (Heq : a = b).
    { apply (same_key_same_message (a :: rest1)); [exact Hnodup | now left | exact Hb | lia]. }
    subst b. f_equal.
    apply IH; [exact Hrest1 | exact Hrest2 | exact (Permutation_cons_inv Hperm) |].
    cbn [map] in Hnodup. now inversion Hnodup.
Qed.

(** X16.  With distinct sequence numbers the extractor's result depends
    neither on the order of the array nor on its other messages: two
    arrays that hold the same media messages yield the same bytes (or
    the same error). *)
Theorem extractor_ignores_arrival_order (items1 items2 : list Data) :
  Permutation (filter is_media items1) (filter is_media items2) ->
  NoDup (map data_sequenceNumber (filter is_media items1)) ->
  TwilioAudioProcessor.extractAudioFromTwilioArray (TwilioAudioProcessor.JArray items1)
  = TwilioAudioProcessor.extractAudioFromTwilioArray (TwilioAudioProcessor.JArray items2).
Proof.
  intros Hperm Hnodup.
  unfold TwilioAudioProcessor.extractAudioFromTwilioArray.
  rewrite (Permutation_length Hperm).
  destruct (length (filter is_media items2) =? 0)%nat; [reflexivity|].
  assert (Hsame :
    TwilioAudioProcessor.sort (filter is_media items1)
    = TwilioAudioProcessor.sort (filter is_media items2)).
  { apply sorted_distinct_unique.
    - apply sort_sorted.
    - apply sort_sorted.
    - apply perm_trans with (filter is_media items1); [apply sort_perm|].
      apply perm_trans with (filter is_media items2);
        [exact Hperm | apply Permutation_sym, sort_perm].
    - apply (Permutation_NoDup
               (Permutation_map data_sequenceNumber
                  (Permutation_sym (sort_perm (filter is_media items1))))).
      exact Hnodup. }
  now rewrite Hsame.
Qed.

Lemma extractor_ignores_arrival_order_witness :
  Permutation
    (filter is_media [media_message 2 "Qg=="; stop_message; media_message 1 "QQ=="])
    (filter is_media [media_message 1 "QQ=="; media_message 2 "Qg=="]) /\
  NoDup (map data_sequenceNumber
           (filter is_media
              [media_message 2 "Qg=="; stop_message; media_message 1 "QQ=="])) /\
  TwilioAudioProcessor.extractAudioFromTwilioArray
    (TwilioAudioProcessor.JArray
       [media_message 2 "Qg=="; stop_message; media_message 1 "QQ=="])
  = TwilioAudioProcessor.extractAudioFromTwilioArray
      (TwilioAudioProcessor.JArray [media_message 1 "QQ=="; media_message 2 "Qg=="]).
Proof.
  assert (Hperm :
    Permutation
      (filter is_media [media_message 2 "Qg=="; stop_message; media_message 1 "QQ=="])
      (filter is_media [media_message 1 "QQ=="; media_message 2 "Qg=="])).
  { cbn. apply perm_swap. }
  assert (Hnodup :
    NoDup (map data_sequenceNumber
             (filter is_media
                [media_message 2 "Qg=="; stop_message; media_message 1 "QQ=="]))).
  { cbn. constructor.
    - intros [H | []]. discriminate H.
    - constructor; [intros [] | constructor]. }
  split; [exact Hperm|]. split; [exact Hnodup|].
  exact (extractor_ignores_arrival_order _ _ Hperm Hnodup).
Defined.

Lemma insert_in_front (msg : Data) (sorted : list Data) :
  HdRel seq_le msg sorted ->
  TwilioAudioProcessor.insert msg sorted = msg :: sorted.
Proof.
  intros Hhd. destruct sorted as [|x rest]; [reflexivity|].
  cbn [TwilioAudioProcessor.insert].
  inversion Hhd as [|? ? Hle]; subst. unfold seq_le in Hle.
  apply Z.leb_le in Hle. now rewrite Hle.
Qed.

Lemma sort_of_sorted (messages : list Data) :
  Sorted seq_le messages -> TwilioAudioProcessor.sort messages = messages.
Proof.
  induction 1 as [|msg rest Hrest IH Hhd]; [reflexivity|].
  unfold TwilioAudioProcessor.sort in *. cbn [fold_right].
  rewrite IH. apply insert_in_front, Hhd.
Qed.

(** X17.  When the media messages reach the live server in ascending
    order of sequence number, the bytes it has pending are the bytes the
    offline extractor returns for the same messages: on in-order input
    the sort changes nothing, and both pipelines concatenate the decoded
    payloads in the same order. *)
Theorem extractor_matches_live_buffer_in_order
    (events : list (Z * Server.event)) (s : Server.t) :
  Forall is_media_event events ->
  events <> [] ->
  Sorted seq_le (media_of events) ->
  AudioBuffer.audioChunks (Server.audioBuffer s) = [] ->
  TwilioAudioProcessor.extractAudioFromTwilioArray
    (TwilioAudioProcessor.JArray (media_of events))
  = JS.Ok (JS.concat
             (AudioBuffer.audioChunks
                (Server.audioBuffer (fst (Server.run events s))))).
Proof.
  intros Hmedia Hsome Hsorted Hempty.
  rewrite (media_run_appends events Hmedia s), Hempty. cbn [app].
  assert (Hfilter : filter is_media (media_of events) = media_of events).
  { clear Hsome Hsorted. induction Hmedia as [|[now e] rest [c [d [He Hd]]] _ IH].
    - reflexivity.
    - cbn [snd] in He. subst e.
      rewrite (media_of_cons_media now c d rest Hd).
      cbn [filter]. rewrite Hd. now rewrite IH. }
  unfold TwilioAudioProcessor.extractAudioFromTwilioArray.
  rewrite Hfilter, (sort_of_sorted _ Hsorted).
  destruct events as [|[now e] rest]; [now contradiction Hsome|].
  inversion Hmedia as [|? ? [c [d [He Hd]]] _]; subst.
  cbn [snd] in He. subst e.
  rewrite (media_of_cons_media now c d rest Hd). reflexivity.
Qed.

Lemma extractor_matches_live_buffer_in_order_witness :
  Forall is_media_event
    [(1000, Server.Message 1 (media_message 1 "QQ=="));
     (1020, Server.Message 1 (media_message 2 "Qg=="))] /\
  Sorted seq_le
    (media_of [(1000, Server.Message 1 (media_message 1 "QQ=="));
               (1020, Server.Message 1 (media_message 2 "Qg=="))]) /\
  TwilioAudioProcessor.extractAudioFromTwilioArray
    (TwilioAudioProcessor.JArray
       (media_of [(1000, Server.Message 1 (media_message 1 "QQ=="));
                  (1020, Server.Message 1 (media_message 2 "Qg=="))]))
  = JS.Ok (JS.concat
             (AudioBuffer.audioChunks
                (Server.audioBuffer
                   (fst (Server.run
                           [(1000, Server.Message 1 (media_message 1 "QQ=="));
                            (1020, Server.Message 1 (media_message 2 "Qg=="))]
                           Server.init))))).
Proof.
  assert (Hmedia :
    Forall is_media_event
      [(1000, Server.Message 1 (media_message 1 "QQ=="));
       (1020, Server.Message 1 (media_message 2 "Qg=="))]).
  { constructor; [|constructor; [|constructor]].
    - exists 1%nat, (media_message 1 "QQ=="). split; reflexivity.
    - exists 1%nat, (media_message 2 "Qg=="). split; reflexivity. }
  assert (Hsorted :
    Sorted seq_le
      (media_of [(1000, Server.Message 1 (media_message 1 "QQ=="));
                 (1020, Server.Message 1 (media_message 2 "Qg=="))])).
  { cbn. repeat constructor. unfold seq_le. cbn. lia. }
  split; [exact Hmedia|]. split; [exact Hsorted|].
  apply (extractor_matches_live_buffer_in_order _ Server.init Hmedia);
    [discriminate | exact Hsorted | reflexivity].
Defined.

(** ** The session id of a phone number *)

Lemma remove_all_twice (first second : ascii -> bool) (text : string) :
  DialogflowCXService.remove_all second (DialogflowCXService.remove_all first text)
  = DialogflowCXService.remove_all (fun c => first c || second c) text.
Proof.
  induction text as [|c rest IH]; [reflexivity|].
  cbn [DialogflowCXService.remove_all].
  destruct (first c); cbn [orb].
  - exact IH.
  - cbn [DialogflowCXService.remove_all]. destruct (second c); now rewrite IH.
Qed.

Lemma remove_all_ext (f g : ascii -> bool) (text : string) :
  (forall c, f c = g c) ->
  DialogflowCXService.remove_all f text = DialogflowCXService.remove_all g text.
Proof.
  intros Hfg. induction text as [|c rest IH]; [reflexivity|].
  cbn [DialogflowCXService.remove_all]. rewrite Hfg, IH. reflexivity.
Qed.

Lemma remove_all_clean (f : ascii -> bool) (text : string) :
  Forall (fun c => f c = false)
    (list_ascii_of_string (DialogflowCXService.remove_all f text)).
Proof.
  induction text as [|c rest IH]; [constructor|].
  cbn [DialogflowCXService.remove_all].
  destruct (f c) eqn:Hc; [exact IH|].
  cbn [list_ascii_of_string]. constructor; assumption.
Qed.

Lemma remove_all_of_clean (f : ascii -> bool) (text : string) :
  Forall (fun c => f c = false) (list_ascii_of_string text) ->
  DialogflowCXService.remove_all f text = text.
Proof.
  induction text as [|c rest IH]; intros Hclean; [reflexivity|].
  cbn [list_ascii_of_string] in Hclean.
  inversion Hclean as [|? ? Hc Hrest]; subst.
  cbn [DialogflowCXService.remove_all]. rewrite Hc, (IH Hrest). reflexivity.
Qed.

(** X18.  The three [replace] passes of [generateSessionIdFromPhone]
    amount to one pass that drops every plus sign, white-space character
    and hyphen and keeps the other characters in order; the session id
    holds none of these characters, so generating an id from an id
    returns it unchanged. *)
Theorem session_id_from_phone (phoneNumber : string) :
  DialogflowCXService.generateSessionIdFromPhone phoneNumber
  = DialogflowCXService.remove_all removed_from_phone phoneNumber /\
  Forall (fun c => removed_from_phone c = false)
    (list_ascii_of_string
       (DialogflowCXService.generateSessionIdFromPhone phoneNumber)) /\
  DialogflowCXService.generateSessionIdFromPhone
    (DialogflowCXService.generateSessionIdFromPhone phoneNumber)
  = DialogflowCXService.generateSessionIdFromPhone phoneNumber.
Proof.
  assert (Hone : forall text,
    DialogflowCXService.generateSessionIdFromPhone text
    = DialogflowCXService.remove_all removed_from_phone text).
  { intros text. unfold DialogflowCXService.generateSessionIdFromPhone.
    rewrite !remove_all_twice. apply remove_all_ext.
    intros c. unfold removed_from_phone.
    destruct (DialogflowCXService.is_plus c), (DialogflowCXService.is_space c),
      (DialogflowCXService.is_dash c); reflexivity. }
  split; [apply Hone|].
  split.
  - rewrite Hone. apply remove_all_clean.
  - rewrite (Hone (DialogflowCXService.generateSessionIdFromPhone phoneNumber)).
    apply remove_all_of_clean. rewrite Hone. apply remove_all_clean.
Qed.

(** ** A start message *)

Lemma or_unknown_truthy (a : option string) :
  JS.truthy_string (Server.or_unknown a) = true.
Proof.
  destruct a as [text|]; [|reflexivity].
  unfold Server.or_unknown.
  destruct (JS.truthy_string text) eqn:Htext; [exact Htext | reflexivity].
Qed.

(** X19.  A start message begins afresh whatever the buffer held: the
    pending chunks are discarded without reaching the transcriber, the
    timer is cleared and the time gate rewound; the new session starts
    at the time of the message, and its id is the call id, a non-empty
    text (["unknown"] when the message carries none).  Transcriptions
    still in flight stay suspended. *)
Theorem start_message_begins_afresh (now : Z) (connection : nat) (data : Data)
    (s : Server.t) :
  data_event data = "start" ->
  snd (Server.step now (Server.Message connection data) s) = [] /\
  Server.suspended (fst (Server.step now (Server.Message connection data) s))
  = Server.suspended s /\
  (exists callSid,
     JS.truthy_string callSid = true /\
     AudioBuffer.sessionId
       (AudioBuffer.session
          (Server.audioBuffer
             (fst (Server.step now (Server.Message connection data) s))))
     = Some callSid /\
     AudioBuffer.callSid
       (AudioBuffer.session
          (Server.audioBuffer
             (fst (Server.step now (Server.Message connection data) s))))
     = Some callSid) /\
  AudioBuffer.sessionStartTime
    (AudioBuffer.session
       (Server.audioBuffer
          (fst (Server.step now (Server.Message connection data) s))))
  = Some now /\
  AudioBuffer.audioChunks
    (Server.audioBuffer (fst (Server.step now (Server.Message connection data) s)))
  = [] /\
  AudioBuffer.chunkCount
    (Server.audioBuffer (fst (Server.step now (Server.Message connection data) s)))
  = 0 /\
  AudioBuffer.isRecording
    (Server.audioBuffer (fst (Server.step now (Server.Message connection data) s)))
  = false /\
  AudioBuffer.processingInterval
    (Server.audioBuffer (fst (Server.step now (Server.Message connection data) s)))
  = None /\
  AudioBuffer.lastProcessTime
    (Server.audioBuffer (fst (Server.step now (Server.Message connection data) s)))
  = 0.
Proof.
  intros Hevent.
  cbn [Server.step]. unfold Server.on_message. rewrite Hevent.
  change (String.eqb "start" "connected") with false.
  change (String.eqb "start" "start") with true.
  cbv iota. cbn [fst snd].
  split; [reflexivity|]. split; [reflexivity|].
  split.
  - eexists. split; [|split; reflexivity].
    apply or_unknown_truthy.
  - repeat split.
Qed.

Lemma start_message_begins_afresh_witness :
  data_event (start_message "CA-A") = "start" /\
  AudioBuffer.audioChunks
    (Server.audioBuffer
       (fst (Server.step 1004100 (Server.Message 2 (start_message "CA-A")) full_server)))
  = [].
Proof.
  split; [reflexivity|].
  exact (proj1 (proj2 (proj2 (proj2 (proj2
           (start_message_begins_afresh 1004100 2 (start_message "CA-A")
              full_server eq_refl)))))).
Defined.
